(** * tornado/tcpserver.py: the listening-socket lifecycle of [TCPServer]

    A shallow embedding of the class [TCPServer] of [src/tornado/tcpserver.py].
    The object's attributes are a record, the dictionary [_sockets] is a
    [gmap] from descriptors to sockets, and every method is a computation in
    a small state-and-exception monad over the object and a chronological
    log of the calls the class makes to its collaborators (the IOLoop, the
    sockets, the stream constructors, the logger, the overridable
    [handle_stream]). *)

From Stdlib Require Import ZArith Ascii.
From stdpp Require Import gmap strings list fin_maps.

Local Open Scope Z_scope.
Local Open Scope string_scope.
Local Open Scope list_scope.

(** ** Python exceptions

    Only the classes the module distinguishes are kept apart.  [ssl.SSLError]
    derives from [socket.error]; [socket_error] stands for every instance of
    [socket.error] that is not an [ssl.SSLError] and carries what
    [errno_from_exception] reads from it.  The last three constructors derive
    from [BaseException] but not from [Exception]. *)
Inductive exn : Type :=
  | KeyError (msg : string)
  | ValueError (msg : string)
  | AssertionError (msg : string)
  | AttributeError (msg : string)
  | IndexError
  | NotImplementedError
  | SSLError (args : list Z)
  | socket_error (errno : option Z)
  | OtherException (name : string)
  | SystemExit
  | KeyboardInterrupt
  | GeneratorExit.

#[global] Instance exn_eq_dec : EqDecision exn.
Proof. solve_decision. Defined.

(** [isinstance(e, Exception)]. *)
Definition isinstance_Exception (e : exn) : bool :=
  match e with
  | SystemExit | KeyboardInterrupt | GeneratorExit => false
  | _ => true
  end.

(** [tornado.util.errno_from_exception], on the socket errors it is applied
    to in this module. *)
Definition errno_from_exception (e : exn) : option Z :=
  match e with
  | socket_error errno => errno
  | SSLError args => args !! 0%nat
  | _ => None
  end.

(** ** Values handled by the server *)

Record IOLoop : Type := { loop_id : nat }.

(** A listening socket: its object identity and what [fileno()] returns. *)
Record Socket : Type := { sock_id : nat; fileno : Z }.

(** An accepted connection (a connected socket object). *)
Record Connection : Type := { conn_id : nat }.

Definition Address : Type := (string * Z)%type.

#[global] Instance IOLoop_eq_dec : EqDecision IOLoop.
Proof. solve_decision. Defined.
#[global] Instance Socket_eq_dec : EqDecision Socket.
Proof. solve_decision. Defined.
#[global] Instance Connection_eq_dec : EqDecision Connection.
Proof. solve_decision. Defined.

(** [ssl_options] is either a dictionary of [ssl.wrap_socket] arguments or
    some other object (an [ssl.SSLContext]). *)
Inductive SSLOptions : Type :=
  | SslDict (d : gmap string string)
  | SslContext (ctx : nat).

Inductive StreamClass : Type := IOStream | SSLIOStream.

(** The arguments of a stream constructor call. *)
Record Stream : Type := {
  stream_class : StreamClass;
  stream_socket : Connection;
  stream_io_loop : option IOLoop;
  stream_max_buffer_size : option Z;
  stream_read_chunk_size : option Z
}.

#[global] Instance StreamClass_eq_dec : EqDecision StreamClass.
Proof. solve_decision. Defined.
#[global] Instance Stream_eq_dec : EqDecision Stream.
Proof. solve_decision. Defined.

(** The attributes of a [TCPServer] instance. *)
Record TCPServer : Type := {
  io_loop : option IOLoop;
  ssl_options : option SSLOptions;
  _sockets : gmap Z Socket;
  _pending_sockets : list Socket;
  _started : bool;
  max_buffer_size : option Z;
  read_chunk_size : option Z
}.

Definition set_io_loop (l : option IOLoop) (s : TCPServer) : TCPServer :=
  {| io_loop := l; ssl_options := ssl_options s; _sockets := _sockets s;
     _pending_sockets := _pending_sockets s; _started := _started s;
     max_buffer_size := max_buffer_size s;
     read_chunk_size := read_chunk_size s |}.

Definition set_sockets (m : gmap Z Socket) (s : TCPServer) : TCPServer :=
  {| io_loop := io_loop s; ssl_options := ssl_options s; _sockets := m;
     _pending_sockets := _pending_sockets s; _started := _started s;
     max_buffer_size := max_buffer_size s;
     read_chunk_size := read_chunk_size s |}.

Definition set_pending_sockets (q : list Socket) (s : TCPServer) : TCPServer :=
  {| io_loop := io_loop s; ssl_options := ssl_options s;
     _sockets := _sockets s; _pending_sockets := q; _started := _started s;
     max_buffer_size := max_buffer_size s;
     read_chunk_size := read_chunk_size s |}.

Definition set_started (b : bool) (s : TCPServer) : TCPServer :=
  {| io_loop := io_loop s; ssl_options := ssl_options s;
     _sockets := _sockets s; _pending_sockets := _pending_sockets s;
     _started := b; max_buffer_size := max_buffer_size s;
     read_chunk_size := read_chunk_size s |}.

(** ** Calls to the collaborators

    One event per call that leaves the class, with the arguments passed. *)
Inductive Event : Type :=
  | add_accept_handler (sock : Socket) (loop : option IOLoop)
  | remove_handler (loop : IOLoop) (fd : Z)
  | sock_close (sock : Socket)
  | fork_processes (num_processes : option Z)
  | connection_close (connection : Connection)
  | stream_init (stream : Stream)
  | handle_stream_call (stream : Stream) (address : Address)
  | app_log_error (msg : string).

#[global] Instance Event_eq_dec : EqDecision Event.
Proof. solve_decision. Defined.

(** ** The monad: the object, the log, and Python's exceptions *)

Record World : Type := { self : TCPServer; trace : list Event }.

Inductive Result (A : Type) : Type :=
  | Ok (a : A)
  | Raise (e : exn).
Arguments Ok {A} a.
Arguments Raise {A} e.

Definition M (A : Type) : Type := World -> Result A * World.

#[global] Instance M_ret : MRet M := fun A a w => (Ok a, w).

#[global] Instance M_bind : MBind M := fun A B f m w =>
  match m w with
  | (Ok a, w') => f a w'
  | (Raise e, w') => (Raise e, w')
  end.

Definition raise {A : Type} (e : exn) : M A := fun w => (Raise e, w).

Definition lift {A : Type} (r : Result A) : M A := fun w => (r, w).

Definition get_self : M TCPServer := fun w => (Ok (self w), w).

Definition update_self (f : TCPServer -> TCPServer) : M unit :=
  fun w => (Ok tt, {| self := f (self w); trace := trace w |}).

Definition emit (ev : Event) : M unit :=
  fun w => (Ok tt, {| self := self w; trace := trace w ++ [ev] |}).

(** [try: body  except <classes matched by handler>: ...]: the handler sees
    the exception and the state the body left behind. *)
Definition try_except {A : Type} (body : M A) (handler : exn -> M A) : M A :=
  fun w =>
    match body w with
    | (Ok a, w') => (Ok a, w')
    | (Raise e, w') => handler e w'
    end.

(** [for x in l: body x]. *)
Fixpoint for_each {A : Type} (l : list A) (body : A -> M unit) : M unit :=
  match l with
  | [] => mret tt
  | x :: l' => body x ;; for_each l' body
  end.

(** ** What the module imports

    The behaviour of the file system, of the platform's constants and of the
    collaborators' fallible calls. *)
Record Env : Type := {
  os_path_exists : string -> bool;
  ssl : bool;
  SSL_ERROR_EOF : Z;
  ECONNABORTED : Z;
  EINVAL : Z;
  IOLoop_current : IOLoop;
  bind_sockets : Z -> option string -> Z -> Z -> Result (list Socket);
  process_fork_processes : option Z -> Result Z;
  ssl_wrap_socket : Connection -> SSLOptions -> Result Connection;
  stream_constructor : Stream -> option exn
}.

(** The class of the server object: [handle_stream] is looked up on it. *)
Record ServerClass : Type := {
  handle_stream : Stream -> Address -> M unit
}.

(** [TCPServer.handle_stream] itself. *)
Definition TCPServer_class : ServerClass :=
  {| handle_stream := fun _ _ => raise NotImplementedError |}.

Definition dq : string := String "034"%char EmptyString.

Section TCPServer.
Variable env : Env.

(** [TCPServer.__init__]. *)
Definition __init__ (io_loop : option IOLoop)
    (ssl_options : option SSLOptions)
    (max_buffer_size read_chunk_size : option Z) : Result TCPServer :=
  let self :=
    {| io_loop := io_loop; ssl_options := ssl_options; _sockets := ∅;
       _pending_sockets := []; _started := false;
       max_buffer_size := max_buffer_size; read_chunk_size := None |} in
  match ssl_options with
  | Some (SslDict d) =>
      match d !! "certfile" with
      | None =>
          Raise (KeyError
            ("missing key " +:+ dq +:+ "certfile" +:+ dq +:+
             " in ssl_options"))
      | Some certfile =>
          if negb (os_path_exists env certfile) then
            Raise (ValueError
              ("certfile " +:+ dq +:+ certfile +:+ dq +:+ " does not exist"))
          else
            match d !! "keyfile" with
            | Some keyfile =>
                if negb (os_path_exists env keyfile) then
                  Raise (ValueError
                    ("keyfile " +:+ dq +:+ keyfile +:+ dq +:+
                     " does not exist"))
                else Ok self
            | None => Ok self
            end
      end
  | _ => Ok self
  end.

(** [TCPServer.add_sockets].  Every [add_accept_handler] call is logged with
    its arguments and taken to return: what the Reactor does with a
    registration, refusing one included, is not part of this class. *)
Definition add_sockets (sockets : list Socket) : M unit :=
  s ← get_self;
  (match io_loop s with
   | None => update_self (set_io_loop (Some (IOLoop_current env)))
   | Some _ => mret tt
   end) ;;
  for_each sockets (fun sock =>
    update_self (fun s => set_sockets (<[fileno sock := sock]> (_sockets s)) s) ;;
    s ← get_self;
    emit (add_accept_handler sock (io_loop s))).

(** [TCPServer.add_socket]. *)
Definition add_socket (socket : Socket) : M unit := add_sockets [socket].

(** [TCPServer.listen]. *)
Definition listen (port : Z) (address : string) : M unit :=
  sockets ← lift (bind_sockets env port (Some address) 0 128);
  add_sockets sockets.

(** [TCPServer.bind]. *)
Definition bind (port : Z) (address : option string) (family backlog : Z)
    : M unit :=
  sockets ← lift (bind_sockets env port address family backlog);
  s ← get_self;
  if _started s then add_sockets sockets
  else update_self (fun s =>
         set_pending_sockets (_pending_sockets s ++ sockets) s).

(** [TCPServer.start]. *)
Definition start (num_processes : option Z) : M unit :=
  s ← get_self;
  if _started s then raise (AssertionError EmptyString)
  else
    update_self (set_started true) ;;
    (if decide (num_processes = Some 1) then mret tt
     else emit (fork_processes num_processes) ;;
          lift (process_fork_processes env num_processes) ;;
          mret tt) ;;
    s ← get_self;
    let sockets := _pending_sockets s in
    update_self (set_pending_sockets []) ;;
    add_sockets sockets.

(** [TCPServer.stop]. *)
Definition stop : M unit :=
  s ← get_self;
  for_each (map_to_list (_sockets s)) (fun '(fd, sock) =>
    s ← get_self;
    (match io_loop s with
     | None =>
         raise (AttributeError
                  "'NoneType' object has no attribute 'remove_handler'")
     | Some loop => emit (remove_handler loop fd)
     end) ;;
    emit (sock_close sock)).

(** The two [except] clauses around [ssl_wrap_socket]: [None] is the early
    [return connection.close()]. *)
Definition wrap_except (connection : Connection) (err : exn)
    : M (option Connection) :=
  match err with
  | SSLError args =>
      match args !! 0%nat with
      | None => raise IndexError
      | Some code =>
          if decide (code = SSL_ERROR_EOF env) then
            emit (connection_close connection) ;; mret None
          else raise err
      end
  | socket_error _ =>
      if decide (errno_from_exception err = Some (ECONNABORTED env)
                 ∨ errno_from_exception err = Some (EINVAL env)) then
        emit (connection_close connection) ;; mret None
      else raise err
  | _ => raise err
  end.

(** The body of the second [try] of [_handle_connection]: build the
    stream, then call [handle_stream] on it. *)
Definition construct_and_dispatch (cls : ServerClass)
    (connection : Connection) (address : Address) : M unit :=
  s ← get_self;
  let stream :=
    {| stream_class :=
         match ssl_options s with
         | Some _ => SSLIOStream
         | None => IOStream
         end;
       stream_socket := connection;
       stream_io_loop := io_loop s;
       stream_max_buffer_size := max_buffer_size s;
       stream_read_chunk_size := read_chunk_size s |} in
  emit (stream_init stream) ;;
  (match stream_constructor env stream with
   | Some e => raise e
   | None => mret tt
   end) ;;
  emit (handle_stream_call stream address) ;;
  handle_stream cls stream address.

(** [TCPServer._handle_connection], for a server of class [cls]. *)
Definition _handle_connection (cls : ServerClass)
    (connection : Connection) (address : Address) : M unit :=
  s ← get_self;
  wrapped ←
    match ssl_options s with
    | Some opts =>
        if negb (ssl env) then
          raise (AssertionError "Python 2.6+ and OpenSSL required for SSL")
        else
          try_except
            (c ← lift (ssl_wrap_socket env connection opts); mret (Some c))
            (wrap_except connection)
    | None => mret (Some connection)
    end;
  match wrapped with
  | None => mret tt
  | Some connection =>
      try_except
        (construct_and_dispatch cls connection address)
        (fun e =>
           if isinstance_Exception e then
             emit (app_log_error "Error in connection callback")
           else raise e)
  end.

End TCPServer.

(** ** Observations on the log *)

Definition is_registration (fd : Z) (ev : Event) : bool :=
  match ev with
  | add_accept_handler sock _ => bool_decide (fileno sock = fd)
  | _ => false
  end.

(** How many times an accept handler was registered for descriptor [fd]. *)
Fixpoint registrations (fd : Z) (tr : list Event) : nat :=
  match tr with
  | [] => 0%nat
  | ev :: tr' =>
      ((if is_registration fd ev then 1 else 0) + registrations fd tr')%nat
  end.

(** The calls one pass of the loop of [stop] makes over the items of the
    dictionary, when [io_loop] is [loop]. *)
Definition stop_calls (loop : IOLoop) (items : list (Z * Socket))
    : list Event :=
  flat_map (fun '(fd, sock) => [remove_handler loop fd; sock_close sock]) items.

(** ** A concrete platform and concrete servers

    Linux values of the constants; the outcome of [ssl_wrap_socket] is told
    by the connection's number. *)
Module Sample.

Definition loop0 : IOLoop := {| loop_id := 0 |}.
Definition sock3 : Socket := {| sock_id := 1; fileno := 3 |}.
Definition sock4 : Socket := {| sock_id := 2; fileno := 4 |}.
Definition sock5 : Socket := {| sock_id := 3; fileno := 5 |}.
Definition peer : Address := ("127.0.0.1", 63959).

Definition env : Env :=
  {| os_path_exists := fun p =>
       bool_decide (p = "server.crt" ∨ p = "server.key");
     ssl := true;
     SSL_ERROR_EOF := 8;
     ECONNABORTED := 103;
     EINVAL := 22;
     IOLoop_current := loop0;
     bind_sockets := fun port _ _ _ =>
       if decide (port = 8888) then Ok [sock4; sock5]
       else Raise (socket_error (Some 98));
     process_fork_processes := fun _ => Ok 0;
     ssl_wrap_socket := fun c _ =>
       match conn_id c with
       | 0%nat => Ok {| conn_id := 100 |}
       | 1%nat => Raise (SSLError [8])
       | 2%nat => Raise (socket_error (Some 103))
       | 3%nat => Raise (SSLError [1])
       | _ => Raise (socket_error (Some 104))
       end;
     stream_constructor := fun _ => None |}.

Definition tls_options : SSLOptions :=
  SslDict {[ "certfile" := "server.crt"; "keyfile" := "server.key" ]}.

Definition plain_server : TCPServer :=
  {| io_loop := None; ssl_options := None; _sockets := ∅;
     _pending_sockets := []; _started := false;
     max_buffer_size := None; read_chunk_size := None |}.

Definition tls_server : TCPServer :=
  {| io_loop := None; ssl_options := Some tls_options; _sockets := ∅;
     _pending_sockets := []; _started := false;
     max_buffer_size := None; read_chunk_size := None |}.

(** A server listening on descriptor 3, with two sockets still queued. *)
Definition listening_server : TCPServer :=
  {| io_loop := Some loop0; ssl_options := None;
     _sockets := {[ 3 := sock3 ]};
     _pending_sockets := [sock4; sock5]; _started := false;
     max_buffer_size := None; read_chunk_size := None |}.

Definition started_server : TCPServer := set_started true listening_server.

(** A subclass whose [handle_stream] calls [sys.exit()]. *)
Definition exiting_class : ServerClass :=
  {| handle_stream := fun _ _ => raise SystemExit |}.

(** A subclass whose [handle_stream] fails on every connection. *)
Definition failing_class : ServerClass :=
  {| handle_stream := fun _ _ => raise (ValueError "bad request") |}.

Definition fresh (s : TCPServer) : World := {| self := s; trace := [] |}.

(** The same servers after the registration of descriptor 3 was logged. *)
Definition listening_world : World :=
  {| self := listening_server;
     trace := [add_accept_handler sock3 (Some loop0)] |}.

Definition started_world : World :=
  {| self := started_server;
     trace := [add_accept_handler sock3 (Some loop0)] |}.

End Sample.

(** ** Clients of the class

    A caller makes the public calls one after the other; an exception raised
    by one of them is handled by the caller, which goes on with the object
    as the call left it. *)
Inductive Call : Type :=
  | call_listen (port : Z) (address : string)
  | call_add_sockets (sockets : list Socket)
  | call_add_socket (socket : Socket)
  | call_bind (port : Z) (address : option string) (family backlog : Z)
  | call_start (num_processes : option Z)
  | call_stop.

Definition run_call (env : Env) (c : Call) : M unit :=
  match c with
  | call_listen port address => listen env port address
  | call_add_sockets sockets => add_sockets env sockets
  | call_add_socket socket => add_socket env socket
  | call_bind port address family backlog =>
      bind env port address family backlog
  | call_start num_processes => start env num_processes
  | call_stop => stop
  end.

Fixpoint run_calls (env : Env) (cs : list Call) (w : World) : World :=
  match cs with
  | [] => w
  | c :: cs' => run_calls env cs' (run_call env c w).2
  end.

(** The invariant of the dictionary [_sockets]: nothing is tracked while
    [io_loop] is unset, and for every tracked socket a call to
    [add_accept_handler] was made with the server's [io_loop]. *)
Definition registry_ok (w : World) : Prop :=
  (io_loop (self w) = None → _sockets (self w) = ∅)
  ∧ ∀ fd sock, _sockets (self w) !! fd = Some sock →
      add_accept_handler sock (io_loop (self w)) ∈ trace w.

(** How many times the handler of descriptor [fd] was removed. *)
Fixpoint deregistrations (fd : Z) (tr : list Event) : nat :=
  match tr with
  | [] => 0%nat
  | remove_handler _ fd' :: tr' =>
      ((if bool_decide (fd' = fd) then 1 else 0) + deregistrations fd tr')%nat
  | _ :: tr' => deregistrations fd tr'
  end.

(** How many times [close()] was called on the listening socket [sock]. *)
Fixpoint closes (sock : Socket) (tr : list Event) : nat :=
  match tr with
  | [] => 0%nat
  | sock_close sock' :: tr' =>
      ((if bool_decide (sock' = sock) then 1 else 0) + closes sock tr')%nat
  | _ :: tr' => closes sock tr'
  end.

(** Further platforms: the parent process of a fan-out, where
    [fork_processes] ends in [sys.exit()]; a Python without the [ssl]
    module; a platform whose stream constructors fail. *)
Module Scenario.

Definition parent_env : Env :=
  {| os_path_exists := os_path_exists Sample.env;
     ssl := true;
     SSL_ERROR_EOF := 8;
     ECONNABORTED := 103;
     EINVAL := 22;
     IOLoop_current := Sample.loop0;
     bind_sockets := bind_sockets Sample.env;
     process_fork_processes := fun _ => Raise SystemExit;
     ssl_wrap_socket := ssl_wrap_socket Sample.env;
     stream_constructor := fun _ => None |}.

Definition no_ssl_env : Env :=
  {| os_path_exists := os_path_exists Sample.env;
     ssl := false;
     SSL_ERROR_EOF := 8;
     ECONNABORTED := 103;
     EINVAL := 22;
     IOLoop_current := Sample.loop0;
     bind_sockets := bind_sockets Sample.env;
     process_fork_processes := fun _ => Ok 0;
     ssl_wrap_socket := ssl_wrap_socket Sample.env;
     stream_constructor := fun _ => None |}.

Definition broken_stream_env : Env :=
  {| os_path_exists := os_path_exists Sample.env;
     ssl := true;
     SSL_ERROR_EOF := 8;
     ECONNABORTED := 103;
     EINVAL := 22;
     IOLoop_current := Sample.loop0;
     bind_sockets := bind_sockets Sample.env;
     process_fork_processes := fun _ => Ok 0;
     ssl_wrap_socket := ssl_wrap_socket Sample.env;
     stream_constructor := fun _ => Some (socket_error (Some 9)) |}.

(** A platform with two free ports, one socket each. *)
Definition two_port_env : Env :=
  {| os_path_exists := os_path_exists Sample.env;
     ssl := true;
     SSL_ERROR_EOF := 8;
     ECONNABORTED := 103;
     EINVAL := 22;
     IOLoop_current := Sample.loop0;
     bind_sockets := fun port _ _ _ =>
       if decide (port = 8888) then Ok [Sample.sock4]
       else if decide (port = 8889) then Ok [Sample.sock5]
       else Raise (socket_error (Some 98));
     process_fork_processes := fun _ => Ok 0;
     ssl_wrap_socket := ssl_wrap_socket Sample.env;
     stream_constructor := fun _ => None |}.

(** A subclass whose [handle_stream] returns at once. *)
Definition quiet_class : ServerClass :=
  {| handle_stream := fun _ _ => mret tt |}.

(** A platform whose [ssl_wrap_socket] raises an [ssl.SSLError] built
    without arguments. *)
Definition bare_ssl_error_env : Env :=
  {| os_path_exists := os_path_exists Sample.env;
     ssl := true;
     SSL_ERROR_EOF := 8;
     ECONNABORTED := 103;
     EINVAL := 22;
     IOLoop_current := Sample.loop0;
     bind_sockets := bind_sockets Sample.env;
     process_fork_processes := fun _ => Ok 0;
     ssl_wrap_socket := fun _ _ => Raise (SSLError []);
     stream_constructor := fun _ => None |}.

(** A new server with descriptor 4 queued by an earlier [bind]. *)
Definition queued_world : World :=
  {| self := set_pending_sockets [Sample.sock4] Sample.plain_server;
     trace := [] |}.



End Scenario.

(** ** Basic facts about the log and the loops *)

(** Runs the monad's operations on the world at hand. *)
Ltac run_monad :=
  unfold mbind, M_bind, mret, M_ret, get_self, update_self, emit, raise, lift,
    try_except;
  cbn.

Lemma registrations_app (fd : Z) (tr1 tr2 : list Event) :
  registrations fd (tr1 ++ tr2)
  = (registrations fd tr1 + registrations fd tr2)%nat.
Proof.
  induction tr1 as [|ev tr1 IH]; simpl; [reflexivity|].
  rewrite IH. lia.
Qed.

Lemma registrations_handlers_fresh (fd : Z) (loop : option IOLoop)
    (sockets : list Socket) :
  fd ∉ fileno <$> sockets →
  registrations fd ((λ s, add_accept_handler s loop) <$> sockets) = 0%nat.
Proof.
  induction sockets as [|s sockets IH]; [reflexivity|].
  rewrite !fmap_cons. cbn [registrations is_registration].
  intros Hnot. apply not_elem_of_cons in Hnot as [Hne Hnot].
  rewrite bool_decide_eq_false_2 by congruence.
  rewrite IH by assumption. reflexivity.
Qed.

Lemma registrations_handlers_once (loop : option IOLoop)
    (sockets : list Socket) (sock : Socket) :
  NoDup (fileno <$> sockets) → sock ∈ sockets →
  registrations (fileno sock) ((λ s, add_accept_handler s loop) <$> sockets)
  = 1%nat.
Proof.
  induction sockets as [|s sockets IH].
  - intros _ Hin. inversion Hin.
  - rewrite !fmap_cons. cbn [registrations is_registration].
    intros Hnd Hin. apply NoDup_cons in Hnd as [Hfresh Hnd].
    apply elem_of_cons in Hin as [->|Hin].
    + rewrite bool_decide_eq_true_2 by reflexivity.
      rewrite registrations_handlers_fresh by assumption. reflexivity.
    + rewrite bool_decide_eq_false_2.
      * rewrite IH by assumption. reflexivity.
      * intros Heq. apply Hfresh. rewrite Heq.
        apply list_elem_of_fmap. exists sock. split; [reflexivity|assumption].
Qed.

(** The dictionary after [d[sock.fileno()] = sock] for each socket in turn. *)
Lemma lookup_foldl_insert_fresh (sockets : list Socket) :
  ∀ (m : gmap Z Socket) (fd : Z),
    fd ∉ fileno <$> sockets →
    foldl (λ m s, <[fileno s := s]> m) m sockets !! fd = m !! fd.
Proof.
  induction sockets as [|s sockets IH]; intros m fd Hnot; [reflexivity|].
  rewrite fmap_cons in Hnot. cbn [foldl].
  apply not_elem_of_cons in Hnot as [Hne Hnot].
  rewrite IH by assumption. apply lookup_insert_ne. congruence.
Qed.

Lemma lookup_foldl_insert_member (sockets : list Socket) :
  ∀ (m : gmap Z Socket) (sock : Socket),
    NoDup (fileno <$> sockets) → sock ∈ sockets →
    foldl (λ m s, <[fileno s := s]> m) m sockets !! fileno sock = Some sock.
Proof.
  induction sockets as [|s sockets IH]; intros m sock Hnd Hin.
  - inversion Hin.
  - rewrite fmap_cons in Hnd. cbn [foldl].
    apply NoDup_cons in Hnd as [Hfresh Hnd].
    apply elem_of_cons in Hin as [->|Hin].
    + rewrite lookup_foldl_insert_fresh by assumption.
      apply lookup_insert_eq.
    + apply IH; assumption.
Qed.

Lemma lookup_foldl_insert_is_Some (sockets : list Socket) :
  ∀ (m : gmap Z Socket) (fd : Z),
    is_Some (m !! fd) ∨ fd ∈ fileno <$> sockets →
    is_Some (foldl (λ m s, <[fileno s := s]> m) m sockets !! fd).
Proof.
  induction sockets as [|s sockets IH]; intros m fd H.
  - destruct H as [H|H]; [assumption|inversion H].
  - rewrite fmap_cons in H. cbn [foldl]. apply IH. destruct H as [H|H].
    + left. destruct (decide (fileno s = fd)) as [->|Hne].
      * rewrite lookup_insert_eq. eauto.
      * rewrite lookup_insert_ne by assumption. assumption.
    + apply elem_of_cons in H as [->|H]; [|right; assumption].
      left. rewrite lookup_insert_eq. eauto.
Qed.

Section Loops.
Variable env : Env.

Lemma world_eta (w : World) : {| self := self w; trace := trace w |} = w.
Proof. destruct w; reflexivity. Qed.

Lemma set_sockets_same (s : TCPServer) : set_sockets (_sockets s) s = s.
Proof. destruct s; reflexivity. Qed.

(** The loop of [add_sockets], once [io_loop] is set. *)
Lemma add_sockets_loop (sockets : list Socket) :
  ∀ w : World,
    for_each sockets (fun sock =>
      update_self
        (fun s => set_sockets (<[fileno sock := sock]> (_sockets s)) s) ;;
      s ← get_self;
      emit (add_accept_handler sock (io_loop s))) w
    = (Ok tt,
       {| self :=
            set_sockets
              (foldl (λ m s, <[fileno s := s]> m) (_sockets (self w))
                 sockets)
              (self w);
          trace :=
            trace w
            ++ ((λ s, add_accept_handler s (io_loop (self w))) <$> sockets)
       |}).
Proof.
  induction sockets as [|sock sockets IH]; intros w.
  - simpl. rewrite set_sockets_same, app_nil_r, world_eta. reflexivity.
  - cbn [for_each]. unfold mbind at 1, M_bind at 1.
    unfold mbind at 1, M_bind at 1. unfold update_self at 1.
    unfold mbind at 1, M_bind at 1. unfold get_self at 1, emit at 1.
    rewrite IH. cbn. rewrite <- app_assoc. reflexivity.
Qed.

(** [add_sockets] never fails: it sets [io_loop] if it was unset, stores
    every socket under its descriptor and registers every socket. *)
Lemma add_sockets_eq (sockets : list Socket) (w : World) :
  add_sockets env sockets w
  = (Ok tt,
     {| self :=
          set_sockets
            (foldl (λ m s, <[fileno s := s]> m) (_sockets (self w)) sockets)
            (set_io_loop
               (Some (default (IOLoop_current env) (io_loop (self w))))
               (self w));
        trace :=
          trace w
          ++ ((λ s, add_accept_handler s
                      (Some (default (IOLoop_current env)
                               (io_loop (self w))))) <$> sockets) |}).
Proof.
  unfold add_sockets. unfold mbind at 1, M_bind at 1. unfold get_self at 1.
  unfold mbind at 1, M_bind at 1.
  destruct w as [s tr]. destruct s as [l o m q b mb rc]. cbn [self io_loop].
  destruct l as [l|]; cbn; rewrite add_sockets_loop; reflexivity.
Qed.

End Loops.

(** ** [stop] *)

Lemma stop_loop (items : list (Z * Socket)) (loop : IOLoop) :
  ∀ w : World,
    io_loop (self w) = Some loop →
    for_each items (fun '(fd, sock) =>
      s ← get_self;
      (match io_loop s with
       | None =>
           raise (AttributeError
                    "'NoneType' object has no attribute 'remove_handler'")
       | Some loop => emit (remove_handler loop fd)
       end) ;;
      emit (sock_close sock)) w
    = (Ok tt, {| self := self w; trace := trace w ++ stop_calls loop items |}).
Proof.
  induction items as [|[fd sock] items IH]; intros w Hloop.
  - simpl. rewrite app_nil_r, world_eta. reflexivity.
  - cbn [for_each]. unfold mbind at 1, M_bind at 1.
    unfold mbind at 1, M_bind at 1. unfold get_self at 1.
    unfold mbind at 1, M_bind at 1. rewrite Hloop.
    unfold emit at 1 2. rewrite IH by exact Hloop.
    cbn. rewrite <- !app_assoc. reflexivity.
Qed.

(** What [stop] does, by cases on [io_loop] and on the dictionary. *)
Lemma stop_eq (w : World) :
  stop w =
  match io_loop (self w), map_to_list (_sockets (self w)) with
  | Some loop, items =>
      (Ok tt, {| self := self w; trace := trace w ++ stop_calls loop items |})
  | None, [] => (Ok tt, w)
  | None, _ :: _ =>
      (Raise (AttributeError
                "'NoneType' object has no attribute 'remove_handler'"), w)
  end.
Proof.
  unfold stop. unfold mbind at 1, M_bind at 1. unfold get_self at 1.
  destruct (io_loop (self w)) as [loop|] eqn:Hloop.
  - apply stop_loop. exact Hloop.
  - destruct (map_to_list (_sockets (self w))) as [|[fd sock] items];
      [reflexivity|].
    cbn [for_each]. unfold mbind at 1, M_bind at 1.
    unfold mbind at 1, M_bind at 1. unfold get_self at 1.
    unfold mbind at 1, M_bind at 1. rewrite Hloop. reflexivity.
Qed.

Lemma stop_calls_member (loop : IOLoop) (items : list (Z * Socket))
    (fd : Z) (sock : Socket) :
  (fd, sock) ∈ items →
  remove_handler loop fd ∈ stop_calls loop items
  ∧ sock_close sock ∈ stop_calls loop items.
Proof.
  intros Hin. unfold stop_calls.
  split; apply list_elem_of_In, in_flat_map; exists (fd, sock);
    (split; [apply list_elem_of_In; exact Hin | simpl; auto]).
Qed.

Lemma stop_calls_inv (loop : IOLoop) (items : list (Z * Socket))
    (ev : Event) :
  ev ∈ stop_calls loop items →
  ∃ fd sock, (fd, sock) ∈ items
             ∧ (ev = remove_handler loop fd ∨ ev = sock_close sock).
Proof.
  unfold stop_calls. intros Hin.
  apply list_elem_of_In, in_flat_map in Hin as [[fd sock] [Hitem Hev]].
  exists fd, sock. split; [apply list_elem_of_In; exact Hitem|].
  simpl in Hev. destruct Hev as [<-|[<-|[]]]; auto.
Qed.

(** Whatever its outcome, [stop] leaves the object as it was and only
    appends, to the log, calls about entries of the dictionary. *)
Lemma stop_frame (w : World) :
  self (stop w).2 = self w
  ∧ ∃ evs, trace (stop w).2 = trace w ++ evs
      ∧ ∀ ev, ev ∈ evs →
          ∃ fd sock, _sockets (self w) !! fd = Some sock
            ∧ ((∃ loop, ev = remove_handler loop fd) ∨ ev = sock_close sock).
Proof.
  rewrite stop_eq.
  destruct (io_loop (self w)) as [loop|].
  - split; [reflexivity|]. exists (stop_calls loop (map_to_list (_sockets (self w)))).
    split; [reflexivity|]. intros ev Hev.
    apply stop_calls_inv in Hev as (fd & sock & Hitem & Hev).
    exists fd, sock. split; [apply elem_of_map_to_list; exact Hitem|].
    destruct Hev as [->| ->]; eauto.
  - destruct (map_to_list (_sockets (self w))); (split; [reflexivity|]);
      exists []; (split; [symmetry; apply app_nil_r|]);
      intros ev Hev; inversion Hev.
Qed.

(** C1, the code at a failing input: the comment above [stop] says that it
    empties and closes all the listening sockets, but on a server tracking
    descriptor 3 [stop] leaves the entry in [_sockets], and a second [stop]
    is not a no-op: it calls [remove_handler] on descriptor 3 and [close] on
    its socket once more. *)
Lemma stop_does_not_clear_registry :
  let w1 := (stop (Sample.fresh Sample.listening_server)).2 in
  _sockets (self w1) !! 3 = Some Sample.sock3
  ∧ _sockets (self w1) ≠ ∅
  ∧ trace (stop w1).2
    = trace w1 ++ [remove_handler Sample.loop0 3; sock_close Sample.sock3]
  ∧ (stop w1).2 ≠ w1.
Proof.
  assert (Hstop : stop (Sample.fresh Sample.listening_server)
                  = (Ok tt,
                     {| self := Sample.listening_server;
                        trace := [remove_handler Sample.loop0 3;
                                  sock_close Sample.sock3] |})).
  { rewrite stop_eq. cbn [self io_loop Sample.fresh Sample.listening_server
                          _sockets trace].
    rewrite map_to_list_singleton. reflexivity. }
  cbv zeta. rewrite Hstop. cbn [snd self trace].
  assert (Hreg : _sockets Sample.listening_server !! 3 = Some Sample.sock3)
    by apply lookup_singleton_eq.
  assert (Hagain :
    stop {| self := Sample.listening_server;
            trace := [remove_handler Sample.loop0 3;
                      sock_close Sample.sock3] |}
    = (Ok tt,
       {| self := Sample.listening_server;
          trace := [remove_handler Sample.loop0 3; sock_close Sample.sock3]
                   ++ [remove_handler Sample.loop0 3;
                       sock_close Sample.sock3] |})).
  { rewrite stop_eq. cbn [self io_loop Sample.listening_server _sockets trace].
    rewrite map_to_list_singleton. reflexivity. }
  rewrite Hagain. cbn [snd trace].
  split; [exact Hreg|]. split; [|split; [reflexivity|]].
  - intros Hempty. rewrite Hempty, lookup_empty in Hreg. discriminate.
  - intros Heq. apply (f_equal (fun w => length (trace w))) in Heq.
    simpl in Heq. discriminate.
Qed.

(** C10: whatever its outcome, [stop] leaves [_pending_sockets] and
    [_started] unchanged, and every call it makes is a [remove_handler] on a
    descriptor tracked in [_sockets] or a [close] on a socket tracked there;
    so a queued socket that is not tracked, and whose descriptor is not
    tracked, is neither closed nor deregistered. *)
Theorem stop_leaves_pending_and_started (w : World) :
  _pending_sockets (self (stop w).2) = _pending_sockets (self w)
  ∧ _started (self (stop w).2) = _started (self w)
  ∧ ∃ evs, trace (stop w).2 = trace w ++ evs
      ∧ (∀ ev, ev ∈ evs →
           ∃ fd sock, _sockets (self w) !! fd = Some sock
             ∧ ((∃ loop, ev = remove_handler loop fd) ∨ ev = sock_close sock))
      ∧ ∀ sock, sock ∈ _pending_sockets (self w) →
          (∀ fd, _sockets (self w) !! fd ≠ Some sock) →
          _sockets (self w) !! fileno sock = None →
          (sock_close sock ∉ evs)
          ∧ (∀ loop, remove_handler loop (fileno sock) ∉ evs).
Proof.
  destruct (stop_frame w) as [Hself (evs & Htrace & Hevs)].
  rewrite Hself. split; [reflexivity|]. split; [reflexivity|].
  exists evs. split; [exact Htrace|]. split; [exact Hevs|].
  intros sock _ Huntracked Hfd. split.
  - intros Hin. apply Hevs in Hin as (fd & sock' & Hlook & [[loop Hev]|Hev]);
      [discriminate|].
    injection Hev as <-. exact (Huntracked fd Hlook).
  - intros loop Hin.
    apply Hevs in Hin as (fd & sock' & Hlook & [[loop' Hev]|Hev]);
      [|discriminate].
    injection Hev as _ <-. rewrite Hfd in Hlook. discriminate.
Qed.

(** The listening server with two queued sockets: descriptor 4 is queued,
    not tracked, and [stop] neither closes nor deregisters it. *)
Lemma stop_leaves_pending_and_started_witness :
  _pending_sockets (self (stop (Sample.fresh Sample.listening_server)).2)
  = [Sample.sock4; Sample.sock5]
  ∧ _started (self (stop (Sample.fresh Sample.listening_server)).2) = false
  ∧ ∃ evs,
      trace (stop (Sample.fresh Sample.listening_server)).2 = [] ++ evs
      ∧ (sock_close Sample.sock4 ∉ evs)
      ∧ (∀ loop, remove_handler loop 4 ∉ evs).
Proof.
  destruct (stop_leaves_pending_and_started
              (Sample.fresh Sample.listening_server))
    as (Hpending & Hstarted & evs & Htrace & _ & Hqueued).
  split; [exact Hpending|]. split; [exact Hstarted|].
  exists evs. split; [exact Htrace|].
  apply (Hqueued Sample.sock4).
  - simpl. constructor.
  - intros fd Hlook. simpl in Hlook.
    apply lookup_singleton_Some in Hlook as [_ Hsock]. discriminate.
  - simpl. apply lookup_singleton_ne. discriminate.
Defined.

(** ** [add_sockets], [bind] and [start] *)

Arguments add_sockets : simpl never.

Section Registration.
Variable env : Env.

(** What [start] does on a server that has not started, when the fan-out
    (if any) returns in this process. *)
Lemma start_eq (w : World) (num_processes : option Z) :
  _started (self w) = false →
  (num_processes ≠ Some 1 →
   ∃ n, process_fork_processes env num_processes = Ok n) →
  start env num_processes w
  = add_sockets env (_pending_sockets (self w))
      {| self := set_pending_sockets [] (set_started true (self w));
         trace :=
           trace w ++ (if decide (num_processes = Some 1) then []
                       else [fork_processes num_processes]) |}.
Proof.
  intros Hstarted Hfork. unfold start.
  unfold mbind at 1, M_bind at 1. unfold get_self at 1.
  rewrite Hstarted.
  unfold mbind at 1, M_bind at 1. unfold mbind at 1, M_bind at 1.
  unfold update_self at 1.
  destruct (decide (num_processes = Some 1)) as [Hone|Hmany].
  - cbn. rewrite app_nil_r. reflexivity.
  - destruct (Hfork Hmany) as [n Hn]. cbn. rewrite Hn. cbn. reflexivity.
Qed.

(** C7: a first [start] whose fan-out (if any) returns, on a queue of
    sockets with distinct descriptors, returns normally with
    [_pending_sockets] empty; every socket that was queued is then tracked
    in [_sockets] under its descriptor, exactly one accept handler has been
    registered for it, and no socket is in both collections. *)
Theorem start_moves_pending_into_registry (w : World)
    (num_processes : option Z) :
  _started (self w) = false →
  (num_processes ≠ Some 1 →
   ∃ n, process_fork_processes env num_processes = Ok n) →
  NoDup (fileno <$> _pending_sockets (self w)) →
  ∃ w',
    start env num_processes w = (Ok tt, w')
    ∧ _started (self w') = true
    ∧ _pending_sockets (self w') = []
    ∧ (∀ sock, sock ∈ _pending_sockets (self w) →
         _sockets (self w') !! fileno sock = Some sock
         ∧ add_accept_handler sock (io_loop (self w')) ∈ trace w'
         ∧ registrations (fileno sock) (trace w')
           = S (registrations (fileno sock) (trace w)))
    ∧ (∀ sock, ¬ (sock ∈ _pending_sockets (self w')
                  ∧ _sockets (self w') !! fileno sock = Some sock)).
Proof.
  intros Hstarted Hfork Hnodup.
  rewrite (start_eq w num_processes Hstarted Hfork), add_sockets_eq.
  eexists. split; [reflexivity|]. cbn [self trace].
  split; [reflexivity|]. split; [reflexivity|]. split.
  - intros sock Hin. split; [|split].
    + cbn. apply lookup_foldl_insert_member; assumption.
    + cbn. apply elem_of_app. right.
      apply list_elem_of_fmap. exists sock. split; [reflexivity|exact Hin].
    + cbn. rewrite !registrations_app.
      rewrite registrations_handlers_once by assumption.
      destruct (decide (num_processes = Some 1)); simpl; lia.
  - intros sock [Hin _]. cbn in Hin. inversion Hin.
Qed.


(** C9: when [bind_sockets] returns [sockets], [bind] on a server that has
    not started returns normally, and afterwards [_pending_sockets] is the
    old queue followed by them, with [_sockets], [_started] and the log
    untouched; on a started
    server it is [add_sockets sockets]: the queue is untouched, an accept
    handler is registered for every socket at once and every one of their
    descriptors is tracked. *)
Theorem bind_queues_before_start_registers_after (w : World)
    (port : Z) (address : option string) (family backlog : Z)
    (sockets : list Socket) :
  bind_sockets env port address family backlog = Ok sockets →
  (_started (self w) = false →
   bind env port address family backlog w
   = (Ok tt,
      {| self :=
           set_pending_sockets (_pending_sockets (self w) ++ sockets)
             (self w);
         trace := trace w |})
   ∧ _pending_sockets (self (bind env port address family backlog w).2)
     = _pending_sockets (self w) ++ sockets
   ∧ _sockets (self (bind env port address family backlog w).2)
     = _sockets (self w)
   ∧ _started (self (bind env port address family backlog w).2) = false
   ∧ trace (bind env port address family backlog w).2 = trace w)
  ∧ (_started (self w) = true →
     ∃ w',
       bind env port address family backlog w = (Ok tt, w')
       ∧ _pending_sockets (self w') = _pending_sockets (self w)
       ∧ trace w'
         = trace w
           ++ ((λ s, add_accept_handler s (io_loop (self w'))) <$> sockets)
       ∧ (∀ sock, sock ∈ sockets →
            is_Some (_sockets (self w') !! fileno sock)
            ∧ add_accept_handler sock (io_loop (self w')) ∈ trace w')
       ∧ (NoDup (fileno <$> sockets) →
          ∀ sock, sock ∈ sockets →
            _sockets (self w') !! fileno sock = Some sock)).
Proof.
  intros Hbind.
  assert (Hstep : bind env port address family backlog w
    = if _started (self w) then add_sockets env sockets w
      else (Ok tt,
            {| self :=
                 set_pending_sockets (_pending_sockets (self w) ++ sockets)
                   (self w);
               trace := trace w |})).
  { unfold bind. unfold mbind at 1, M_bind at 1. unfold lift at 1.
    rewrite Hbind. unfold mbind at 1, M_bind at 1. unfold get_self at 1.
    destruct (_started (self w)); reflexivity. }
  rewrite Hstep. split; intros Hstarted; rewrite Hstarted.
  - cbn [snd self trace]. split; [reflexivity|]. split; [reflexivity|].
    split; [reflexivity|]. split; [exact Hstarted|reflexivity].
  - rewrite add_sockets_eq. eexists. split; [reflexivity|].
    cbn [self trace]. split; [reflexivity|]. split; [reflexivity|].
    split.
    + intros sock Hin. split.
      * cbn. apply lookup_foldl_insert_is_Some. right.
        apply list_elem_of_fmap. exists sock. split; [reflexivity|exact Hin].
      * cbn. apply elem_of_app. right.
        apply list_elem_of_fmap. exists sock. split; [reflexivity|exact Hin].
    + intros Hnodup sock Hin. cbn.
      apply lookup_foldl_insert_member; assumption.
Qed.

End Registration.

(** [start(0)] on the listening server with two queued sockets. *)
Lemma start_moves_pending_into_registry_witness :
  _started (self Sample.listening_world) = false
  ∧ NoDup (fileno <$> _pending_sockets (self Sample.listening_world))
  ∧ ∃ w',
      start Sample.env (Some 0) Sample.listening_world = (Ok tt, w')
      ∧ _started (self w') = true
      ∧ _pending_sockets (self w') = []
      ∧ (∀ sock, sock ∈ _pending_sockets (self Sample.listening_world) →
           _sockets (self w') !! fileno sock = Some sock
           ∧ add_accept_handler sock (io_loop (self w')) ∈ trace w'
           ∧ registrations (fileno sock) (trace w')
             = S (registrations (fileno sock)
                    (trace Sample.listening_world)))
      ∧ (∀ sock, ¬ (sock ∈ _pending_sockets (self w')
                    ∧ _sockets (self w') !! fileno sock = Some sock)).
Proof.
  assert (Hnodup :
    NoDup (fileno <$> _pending_sockets (self Sample.listening_world))).
  { apply (bool_decide_unpack _). vm_compute. exact I. }
  split; [reflexivity|]. split; [exact Hnodup|].
  apply (start_moves_pending_into_registry Sample.env
           Sample.listening_world (Some 0)).
  - reflexivity.
  - intros _. exists 0. reflexivity.
  - exact Hnodup.
Defined.



(** [bind(8889)] on a server with descriptor 4 already queued, and on the
    started server. *)
Lemma bind_queues_before_start_registers_after_witness :
  bind_sockets Scenario.two_port_env 8889 None 0 128 = Ok [Sample.sock5]
  ∧ _started (self Scenario.queued_world) = false
  ∧ _started (self Sample.started_world) = true
  ∧ (bind Scenario.two_port_env 8889 None 0 128 Scenario.queued_world
     = (Ok tt,
        {| self :=
             set_pending_sockets
               (_pending_sockets (self Scenario.queued_world)
                ++ [Sample.sock5])
               (self Scenario.queued_world);
           trace := trace Scenario.queued_world |})
     ∧ _pending_sockets
         (self (bind Scenario.two_port_env 8889 None 0 128
                  Scenario.queued_world).2)
       = _pending_sockets (self Scenario.queued_world) ++ [Sample.sock5]
     ∧ _sockets
         (self (bind Scenario.two_port_env 8889 None 0 128
                  Scenario.queued_world).2)
       = _sockets (self Scenario.queued_world)
     ∧ _started
         (self (bind Scenario.two_port_env 8889 None 0 128
                  Scenario.queued_world).2)
       = false
     ∧ trace (bind Scenario.two_port_env 8889 None 0 128
                Scenario.queued_world).2
       = trace Scenario.queued_world)
  ∧ ∃ w',
      bind Scenario.two_port_env 8889 None 0 128 Sample.started_world
      = (Ok tt, w')
      ∧ _pending_sockets (self w')
        = _pending_sockets (self Sample.started_world)
      ∧ trace w'
        = trace Sample.started_world
          ++ ((λ s, add_accept_handler s (io_loop (self w')))
                <$> [Sample.sock5]).
Proof.
  split; [reflexivity|]. split; [reflexivity|]. split; [reflexivity|].
  split.
  - apply (bind_queues_before_start_registers_after Scenario.two_port_env
             Scenario.queued_world 8889 None 0 128 [Sample.sock5] eq_refl).
    reflexivity.
  - destruct (bind_queues_before_start_registers_after Scenario.two_port_env
                Sample.started_world 8889 None 0 128 [Sample.sock5] eq_refl)
      as [_ Hafter].
    destruct (Hafter eq_refl) as (w' & Hbind & Hpending & Htrace & _).
    exists w'. split; [exact Hbind|]. split; [exact Hpending|exact Htrace].
Defined.

(** ** [_handle_connection] *)

Section Accept.
Variable env : Env.

(** When no TLS is configured, or [ssl_wrap_socket] returns [c], the
    callback is the second [try] statement on [c]. *)
Lemma handle_connection_negotiated (cls : ServerClass)
    (connection c : Connection) (address : Address) (w : World) :
  (ssl_options (self w) = None ∧ c = connection)
  ∨ (∃ opts, ssl_options (self w) = Some opts ∧ ssl env = true
             ∧ ssl_wrap_socket env connection opts = Ok c) →
  _handle_connection env cls connection address w
  = try_except (construct_and_dispatch env cls c address)
      (fun e =>
         if isinstance_Exception e then
           emit (app_log_error "Error in connection callback")
         else raise e) w.
Proof.
  intros Hpass. unfold _handle_connection.
  unfold mbind at 1, M_bind at 1. unfold get_self at 1.
  unfold mbind at 1, M_bind at 1.
  destruct Hpass as [[Hnone ->]|(opts & Hopts & Hssl & Hwrap)].
  - rewrite Hnone. reflexivity.
  - rewrite Hopts, Hssl. cbn [negb]. unfold try_except at 1.
    unfold mbind at 1, M_bind at 1. unfold lift at 1. rewrite Hwrap.
    reflexivity.
Qed.

(** When [ssl_wrap_socket] raises, the callback is the matching [except]
    clause: it returns if the clause closed the connection, and raises
    what the clause raises. *)
Lemma handle_connection_wrap_failed (cls : ServerClass)
    (connection : Connection) (address : Address) (w : World)
    (opts : SSLOptions) (err : exn) :
  ssl_options (self w) = Some opts → ssl env = true →
  ssl_wrap_socket env connection opts = Raise err →
  _handle_connection env cls connection address w
  = match wrap_except env connection err w with
    | (Ok None, w') => (Ok tt, w')
    | (Ok (Some c), w') =>
        try_except (construct_and_dispatch env cls c address)
          (fun e =>
             if isinstance_Exception e then
               emit (app_log_error "Error in connection callback")
             else raise e) w'
    | (Raise e, w') => (Raise e, w')
    end.
Proof.
  intros Hopts Hssl Hwrap. unfold _handle_connection.
  unfold mbind at 1, M_bind at 1. unfold get_self at 1.
  unfold mbind at 1, M_bind at 1.
  rewrite Hopts, Hssl. cbn [negb]. unfold try_except at 1.
  unfold mbind at 1, M_bind at 1. unfold lift at 1. rewrite Hwrap.
  destruct (wrap_except env connection err w) as [[[c|]|e] w'];
    reflexivity.
Qed.

(** C4: on a TLS-configured server, when [ssl_wrap_socket] raises an
    [ssl.SSLError] whose first argument is [SSL_ERROR_EOF], or a
    [socket.error] whose errno is [ECONNABORTED] or [EINVAL], the callback
    returns normally, whatever the class of the server; its only call is
    [close()] on the raw connection, so [handle_stream] is not called. *)
Theorem benign_tls_failure_closes_without_dispatch (cls : ServerClass)
    (connection : Connection) (address : Address) (w : World)
    (opts : SSLOptions) (err : exn) :
  ssl_options (self w) = Some opts → ssl env = true →
  ssl_wrap_socket env connection opts = Raise err →
  (∃ rest, err = SSLError (SSL_ERROR_EOF env :: rest))
  ∨ err = socket_error (Some (ECONNABORTED env))
  ∨ err = socket_error (Some (EINVAL env)) →
  _handle_connection env cls connection address w
  = (Ok tt,
     {| self := self w; trace := trace w ++ [connection_close connection] |})
  ∧ ∀ stream a,
      handle_stream_call stream a ∉ [connection_close connection].
Proof.
  intros Hopts Hssl Hwrap Hbenign. split.
  - rewrite (handle_connection_wrap_failed cls connection address w opts err
               Hopts Hssl Hwrap).
    destruct Hbenign as [[rest ->]|[-> | ->]]; cbn.
    + rewrite decide_True by reflexivity. reflexivity.
    + rewrite decide_True by (left; reflexivity). reflexivity.
    + rewrite decide_True by (right; reflexivity). reflexivity.
  - intros stream a Hin. apply list_elem_of_singleton in Hin. discriminate.
Qed.

(** C2, as amended: on a TLS-configured server, when [ssl_wrap_socket]
    raises an error that is none of the three benign ones, the callback
    raises: that error propagates out of [_handle_connection], except that
    an [ssl.SSLError] without arguments is replaced by the [IndexError] of
    [err.args[0]]; the callback has closed nothing, built no stream, called
    no handler and logged nothing. *)
Theorem unexpected_tls_failure_propagates (cls : ServerClass)
    (connection : Connection) (address : Address) (w : World)
    (opts : SSLOptions) (err : exn) :
  ssl_options (self w) = Some opts → ssl env = true →
  ssl_wrap_socket env connection opts = Raise err →
  (∀ rest, err ≠ SSLError (SSL_ERROR_EOF env :: rest)) →
  err ≠ socket_error (Some (ECONNABORTED env)) →
  err ≠ socket_error (Some (EINVAL env)) →
  _handle_connection env cls connection address w
  = (Raise match err with
           | SSLError [] => IndexError
           | _ => err
           end, w).
Proof.
  intros Hopts Hssl Hwrap Heof Haborted Hinval.
  rewrite (handle_connection_wrap_failed cls connection address w opts err
             Hopts Hssl Hwrap).
  destruct err as [| | | | | |args|errno| | | |]; try reflexivity.
  - destruct args as [|code rest]; cbn; [reflexivity|].
    destruct (decide (code = SSL_ERROR_EOF env)) as [->|Hne]; [|reflexivity].
    exfalso. exact (Heof rest eq_refl).
  - cbn.
    destruct (decide (errno = Some (ECONNABORTED env)
                      ∨ errno = Some (EINVAL env))) as [[->| ->]|Hne];
      [| |reflexivity].
    + exfalso. exact (Haborted eq_refl).
    + exfalso. exact (Hinval eq_refl).
Qed.

(** C5, as amended: once the connection has passed TLS negotiation, an
    exception that is an instance of [Exception], raised by the stream
    constructor or by [handle_stream], is caught: the callback logs
    "Error in connection callback" and returns normally. *)
Theorem dispatch_Exception_is_logged_and_suppressed (cls : ServerClass)
    (connection c : Connection) (address : Address) (w w' : World)
    (e : exn) :
  (ssl_options (self w) = None ∧ c = connection)
  ∨ (∃ opts, ssl_options (self w) = Some opts ∧ ssl env = true
             ∧ ssl_wrap_socket env connection opts = Ok c) →
  construct_and_dispatch env cls c address w = (Raise e, w') →
  isinstance_Exception e = true →
  _handle_connection env cls connection address w
  = (Ok tt,
     {| self := self w';
        trace := trace w' ++ [app_log_error "Error in connection callback"]
     |}).
Proof.
  intros Hpass Hbody Hexc.
  rewrite (handle_connection_negotiated cls connection c address w Hpass).
  unfold try_except. rewrite Hbody, Hexc. reflexivity.
Qed.

(** The [handle_stream] of [TCPServer] itself: once the stream is built,
    the call raises [NotImplementedError]. *)
Lemma base_handle_stream_not_implemented (c : Connection)
    (address : Address) (w : World) :
  let stream :=
    {| stream_class :=
         match ssl_options (self w) with
         | Some _ => SSLIOStream
         | None => IOStream
         end;
       stream_socket := c;
       stream_io_loop := io_loop (self w);
       stream_max_buffer_size := max_buffer_size (self w);
       stream_read_chunk_size := read_chunk_size (self w) |} in
  stream_constructor env stream = None →
  construct_and_dispatch env TCPServer_class c address w
  = (Raise NotImplementedError,
     {| self := self w;
        trace := trace w
                 ++ [stream_init stream; handle_stream_call stream address]
     |}).
Proof.
  intros stream Hctor. unfold construct_and_dispatch.
  unfold mbind at 1, M_bind at 1. unfold get_self at 1.
  fold stream. rewrite Hctor. run_monad. rewrite <- app_assoc. reflexivity.
Qed.

End Accept.

(** A peer that is gone at TLS setup: unexpected EOF, and ECONNABORTED. *)
Lemma benign_tls_failure_closes_without_dispatch_witness :
  ssl_options (self (Sample.fresh Sample.tls_server)) = Some Sample.tls_options
  ∧ ssl Sample.env = true
  ∧ ssl_wrap_socket Sample.env {| conn_id := 1 |} Sample.tls_options
    = Raise (SSLError [8])
  ∧ ssl_wrap_socket Sample.env {| conn_id := 2 |} Sample.tls_options
    = Raise (socket_error (Some 103))
  ∧ _handle_connection Sample.env Sample.failing_class {| conn_id := 1 |}
      Sample.peer (Sample.fresh Sample.tls_server)
    = (Ok tt,
       {| self := Sample.tls_server;
          trace := [] ++ [connection_close {| conn_id := 1 |}] |})
  ∧ _handle_connection Sample.env Sample.failing_class {| conn_id := 2 |}
      Sample.peer (Sample.fresh Sample.tls_server)
    = (Ok tt,
       {| self := Sample.tls_server;
          trace := [] ++ [connection_close {| conn_id := 2 |}] |}).
Proof.
  split; [reflexivity|]. split; [reflexivity|]. split; [reflexivity|].
  split; [reflexivity|]. split.
  - apply (benign_tls_failure_closes_without_dispatch Sample.env
             Sample.failing_class {| conn_id := 1 |} Sample.peer
             (Sample.fresh Sample.tls_server) Sample.tls_options
             (SSLError [8]) eq_refl eq_refl eq_refl).
    left. exists []. reflexivity.
  - apply (benign_tls_failure_closes_without_dispatch Sample.env
             Sample.failing_class {| conn_id := 2 |} Sample.peer
             (Sample.fresh Sample.tls_server) Sample.tls_options
             (socket_error (Some 103)) eq_refl eq_refl eq_refl).
    right. left. reflexivity.
Defined.

(** C2, refuted as stated: [ssl_wrap_socket] fails with an [ssl.SSLError]
    whose code is 1, not [SSL_ERROR_EOF]; the error comes out of
    [_handle_connection] and nothing has been logged. *)
Lemma unexpected_tls_failure_escapes_the_callback :
  ssl_wrap_socket Sample.env {| conn_id := 3 |} Sample.tls_options
  = Raise (SSLError [1])
  ∧ 1 ≠ SSL_ERROR_EOF Sample.env
  ∧ _handle_connection Sample.env Sample.failing_class {| conn_id := 3 |}
      Sample.peer (Sample.fresh Sample.tls_server)
    = (Raise (SSLError [1]), Sample.fresh Sample.tls_server)
  ∧ app_log_error "Error in connection callback"
    ∉ trace (_handle_connection Sample.env Sample.failing_class
               {| conn_id := 3 |} Sample.peer
               (Sample.fresh Sample.tls_server)).2.
Proof.
  assert (Hrun :
    _handle_connection Sample.env Sample.failing_class {| conn_id := 3 |}
      Sample.peer (Sample.fresh Sample.tls_server)
    = (Raise (SSLError [1]), Sample.fresh Sample.tls_server))
    by reflexivity.
  split; [reflexivity|]. split; [discriminate|]. split; [exact Hrun|].
  rewrite Hrun. cbn. intros Hin. inversion Hin.
Qed.

(** A connection reset (errno 104) at TLS setup, which propagates as it is,
    and an [ssl.SSLError] without arguments, which comes out as an
    [IndexError]. *)
Lemma unexpected_tls_failure_propagates_witness :
  ssl_options (self (Sample.fresh Sample.tls_server)) = Some Sample.tls_options
  ∧ ssl Sample.env = true
  ∧ ssl_wrap_socket Sample.env {| conn_id := 4 |} Sample.tls_options
    = Raise (socket_error (Some 104))
  ∧ ssl_wrap_socket Scenario.bare_ssl_error_env {| conn_id := 0 |}
      Sample.tls_options
    = Raise (SSLError [])
  ∧ _handle_connection Sample.env Sample.failing_class {| conn_id := 4 |}
      Sample.peer (Sample.fresh Sample.tls_server)
    = (Raise (socket_error (Some 104)), Sample.fresh Sample.tls_server)
  ∧ _handle_connection Scenario.bare_ssl_error_env Sample.failing_class
      {| conn_id := 0 |} Sample.peer (Sample.fresh Sample.tls_server)
    = (Raise IndexError, Sample.fresh Sample.tls_server).
Proof.
  split; [reflexivity|]. split; [reflexivity|]. split; [reflexivity|].
  split; [reflexivity|]. split.
  - apply (unexpected_tls_failure_propagates Sample.env Sample.failing_class
             {| conn_id := 4 |} Sample.peer (Sample.fresh Sample.tls_server)
             Sample.tls_options (socket_error (Some 104))
             eq_refl eq_refl eq_refl).
    + intros rest. discriminate.
    + simpl. discriminate.
    + simpl. discriminate.
  - apply (unexpected_tls_failure_propagates Scenario.bare_ssl_error_env
             Sample.failing_class {| conn_id := 0 |} Sample.peer
             (Sample.fresh Sample.tls_server) Sample.tls_options
             (SSLError []) eq_refl eq_refl eq_refl).
    + intros rest. discriminate.
    + discriminate.
    + discriminate.
Defined.

(** C5, refuted as stated: a [handle_stream] that raises [SystemExit] (it
    calls [sys.exit()]), which is not an instance of [Exception]; the
    exception comes out of [_handle_connection] and nothing is logged. *)
Lemma SystemExit_escapes_the_error_boundary :
  let stream :=
    {| stream_class := IOStream; stream_socket := {| conn_id := 0 |};
       stream_io_loop := None; stream_max_buffer_size := None;
       stream_read_chunk_size := None |} in
  handle_stream Sample.exiting_class stream Sample.peer
    {| self := Sample.plain_server;
       trace := [stream_init stream; handle_stream_call stream Sample.peer] |}
  = (Raise SystemExit,
     {| self := Sample.plain_server;
        trace := [stream_init stream; handle_stream_call stream Sample.peer]
     |})
  ∧ _handle_connection Sample.env Sample.exiting_class {| conn_id := 0 |}
      Sample.peer (Sample.fresh Sample.plain_server)
    = (Raise SystemExit,
       {| self := Sample.plain_server;
          trace := [stream_init stream; handle_stream_call stream Sample.peer]
       |}).
Proof. split; reflexivity. Qed.

(** A TLS connection accepted by a server that does not override
    [handle_stream]. *)
Lemma dispatch_Exception_is_logged_and_suppressed_witness :
  let stream :=
    {| stream_class := SSLIOStream; stream_socket := {| conn_id := 100 |};
       stream_io_loop := None; stream_max_buffer_size := None;
       stream_read_chunk_size := None |} in
  ssl_wrap_socket Sample.env {| conn_id := 0 |} Sample.tls_options
  = Ok {| conn_id := 100 |}
  ∧ isinstance_Exception NotImplementedError = true
  ∧ construct_and_dispatch Sample.env TCPServer_class {| conn_id := 100 |}
      Sample.peer (Sample.fresh Sample.tls_server)
    = (Raise NotImplementedError,
       {| self := Sample.tls_server;
          trace := [stream_init stream; handle_stream_call stream Sample.peer]
       |})
  ∧ _handle_connection Sample.env TCPServer_class {| conn_id := 0 |}
      Sample.peer (Sample.fresh Sample.tls_server)
    = (Ok tt,
       {| self := Sample.tls_server;
          trace := [stream_init stream; handle_stream_call stream Sample.peer]
                   ++ [app_log_error "Error in connection callback"] |}).
Proof.
  cbv zeta.
  split; [reflexivity|]. split; [reflexivity|]. split; [reflexivity|].
  apply (dispatch_Exception_is_logged_and_suppressed Sample.env
           TCPServer_class {| conn_id := 0 |} {| conn_id := 100 |} Sample.peer
           (Sample.fresh Sample.tls_server)
           {| self := Sample.tls_server;
              trace :=
                [stream_init
                   {| stream_class := SSLIOStream;
                      stream_socket := {| conn_id := 100 |};
                      stream_io_loop := None; stream_max_buffer_size := None;
                      stream_read_chunk_size := None |};
                 handle_stream_call
                   {| stream_class := SSLIOStream;
                      stream_socket := {| conn_id := 100 |};
                      stream_io_loop := None; stream_max_buffer_size := None;
                      stream_read_chunk_size := None |} Sample.peer] |}
           NotImplementedError).
  - right. exists Sample.tls_options.
    split; [reflexivity|]. split; reflexivity.
  - reflexivity.
  - reflexivity.
Defined.

(** ** [__init__] *)

(** The constructor stores [max_buffer_size] but never [read_chunk_size]. *)
Lemma init_attributes (env : Env) (loop : option IOLoop)
    (opts : option SSLOptions) (mbs rcs : option Z) (srv : TCPServer) :
  __init__ env loop opts mbs rcs = Ok srv →
  srv = {| io_loop := loop; ssl_options := opts; _sockets := ∅;
           _pending_sockets := []; _started := false;
           max_buffer_size := mbs; read_chunk_size := None |}.
Proof.
  unfold __init__. intros Hinit.
  repeat match type of Hinit with
         | context [match ?x with _ => _ end] => destruct x
         end; congruence.
Qed.

(** C3, the code at a failing input: a server constructed with
    [max_buffer_size=104857600, read_chunk_size=4096] stores 104857600 and
    [None], and the stream built for an accepted connection is given
    [max_buffer_size=104857600] and [read_chunk_size=None]. *)
Lemma read_chunk_size_is_not_forwarded :
  ∃ srv,
    __init__ Sample.env None None (Some 104857600) (Some 4096) = Ok srv
    ∧ max_buffer_size srv = Some 104857600
    ∧ read_chunk_size srv = None
    ∧ trace (_handle_connection Sample.env Sample.failing_class
               {| conn_id := 0 |} Sample.peer (Sample.fresh srv)).2
      !! 0%nat
      = Some (stream_init
                {| stream_class := IOStream;
                   stream_socket := {| conn_id := 0 |};
                   stream_io_loop := None;
                   stream_max_buffer_size := Some 104857600;
                   stream_read_chunk_size := None |}).
Proof.
  eexists. split; [reflexivity|]. split; [reflexivity|].
  split; reflexivity.
Qed.

(** C6: with a dictionary as TLS configuration, the constructor raises when
    the dictionary has no "certfile" key (a [KeyError], also for the empty
    dictionary), when the certificate path does not exist, and when a
    "keyfile" is given whose path does not exist (a [ValueError]); no server
    object is produced, and the constructor makes no call to any
    collaborator. *)
Theorem init_rejects_bad_tls_material (env : Env) (loop : option IOLoop)
    (d : gmap string string) (mbs rcs : option Z) :
  d !! "certfile" = None
  ∨ (∃ certfile, d !! "certfile" = Some certfile
                 ∧ os_path_exists env certfile = false)
  ∨ (∃ keyfile, d !! "keyfile" = Some keyfile
                ∧ os_path_exists env keyfile = false) →
  ∃ e,
    __init__ env loop (Some (SslDict d)) mbs rcs = Raise e
    ∧ (d !! "certfile" = None → ∃ msg, e = KeyError msg)
    ∧ (is_Some (d !! "certfile") → ∃ msg, e = ValueError msg).
Proof.
  intros Hbad. unfold __init__.
  destruct (d !! "certfile") as [certfile|] eqn:Hcert.
  - destruct (os_path_exists env certfile) eqn:Hexists; cbn [negb].
    + destruct Hbad as [Hnone|[(c & Hc & Hmissing)|(k & Hk & Hmissing)]].
      * discriminate.
      * injection Hc as <-. congruence.
      * rewrite Hk, Hmissing. cbn [negb].
        eexists. split; [reflexivity|]. split; [discriminate|eauto].
    + eexists. split; [reflexivity|]. split; [discriminate|eauto].
  - eexists. split; [reflexivity|]. split; [eauto|].
    intros [x Hx]. discriminate.
Qed.

(** A certificate that exists with a key file that does not. *)
Lemma init_rejects_bad_tls_material_witness :
  ({[ "certfile" := "server.crt"; "keyfile" := "absent.key" ]}
     : gmap string string) !! "keyfile" = Some "absent.key"
  ∧ os_path_exists Sample.env "absent.key" = false
  ∧ ∃ e,
      __init__ Sample.env None
        (Some (SslDict {[ "certfile" := "server.crt";
                          "keyfile" := "absent.key" ]})) None None
      = Raise e
      ∧ (({[ "certfile" := "server.crt"; "keyfile" := "absent.key" ]}
            : gmap string string) !! "certfile" = None →
         ∃ msg, e = KeyError msg)
      ∧ (is_Some (({[ "certfile" := "server.crt"; "keyfile" := "absent.key" ]}
                     : gmap string string) !! "certfile") →
         ∃ msg, e = ValueError msg).
Proof.
  split; [reflexivity|]. split; [reflexivity|].
  apply (init_rejects_bad_tls_material Sample.env None
           {[ "certfile" := "server.crt"; "keyfile" := "absent.key" ]}
           None None).
  right. right. exists "absent.key". split; reflexivity.
Defined.

(** * Further properties of the class *)

(** ** The constructor *)

(** The constructor returns a server exactly when [ssl_options] is not a
    dictionary, or is one whose "certfile" exists and whose "keyfile", if
    given, exists; the server then tracks nothing, has nothing queued, has
    not started, and keeps [io_loop], [ssl_options] and [max_buffer_size] as
    given. *)
Theorem init_succeeds_iff_material_valid (env : Env) (loop : option IOLoop)
    (opts : option SSLOptions) (mbs rcs : option Z) (srv : TCPServer) :
  __init__ env loop opts mbs rcs = Ok srv
  ↔ (∀ d, opts = Some (SslDict d) →
       (∃ certfile, d !! "certfile" = Some certfile
                    ∧ os_path_exists env certfile = true)
       ∧ (∀ keyfile, d !! "keyfile" = Some keyfile →
            os_path_exists env keyfile = true))
    ∧ srv = {| io_loop := loop; ssl_options := opts; _sockets := ∅;
               _pending_sockets := []; _started := false;
               max_buffer_size := mbs; read_chunk_size := None |}.
Proof.
  unfold __init__. split.
  - intros Hinit. split.
    + intros d ->.
      destruct (d !! "certfile") as [certfile|]; [|discriminate].
      destruct (os_path_exists env certfile) eqn:Hcert; [|discriminate].
      split; [eauto|]. intros keyfile Hkey. rewrite Hkey in Hinit.
      destruct (os_path_exists env keyfile); [reflexivity|discriminate].
    + repeat match type of Hinit with
             | context [match ?x with _ => _ end] => destruct x
             end; congruence.
  - intros [Hvalid ->]. destruct opts as [[d|ctx]|]; try reflexivity.
    destruct (Hvalid d eq_refl) as [(certfile & Hcert & Hexists) Hkey].
    rewrite Hcert, Hexists. cbn [negb].
    destruct (d !! "keyfile") as [keyfile|]; [|reflexivity].
    rewrite (Hkey keyfile eq_refl). reflexivity.
Qed.

(** ** [start] *)

(** [start], by cases: already started; no fan-out; a fan-out that returns;
    a fan-out that raises. *)
Lemma start_cases (env : Env) (w : World) (num_processes : option Z) :
  start env num_processes w =
  if _started (self w) then (Raise (AssertionError EmptyString), w)
  else if decide (num_processes = Some 1) then
    add_sockets env (_pending_sockets (self w))
      {| self := set_pending_sockets [] (set_started true (self w));
         trace := trace w |}
  else
    match process_fork_processes env num_processes with
    | Ok _ =>
        add_sockets env (_pending_sockets (self w))
          {| self := set_pending_sockets [] (set_started true (self w));
             trace := trace w ++ [fork_processes num_processes] |}
    | Raise e =>
        (Raise e,
         {| self := set_started true (self w);
            trace := trace w ++ [fork_processes num_processes] |})
    end.
Proof.
  unfold start. unfold mbind at 1, M_bind at 1. unfold get_self at 1.
  destruct (_started (self w)); [reflexivity|].
  unfold mbind at 1, M_bind at 1. unfold mbind at 1, M_bind at 1.
  unfold update_self at 1.
  destruct (decide (num_processes = Some 1)) as [Hone|Hmany].
  - reflexivity.
  - run_monad. destruct (process_fork_processes env num_processes);
      reflexivity.
Qed.

Lemma start_sets_started (env : Env) (w : World) (num_processes : option Z) :
  _started (self (start env num_processes w).2) = true.
Proof.
  rewrite start_cases.
  destruct (_started (self w)) eqn:Hstarted; [exact Hstarted|].
  destruct (decide (num_processes = Some 1)).
  - rewrite add_sockets_eq. reflexivity.
  - destruct (process_fork_processes env num_processes).
    + rewrite add_sockets_eq. reflexivity.
    + reflexivity.
Qed.

(** Whatever a call to [start] did (returned, failed in the fan-out, or was
    itself refused), every later [start] raises [AssertionError] and changes
    nothing, also when [stop] was called in between: [stop] does not reset
    [_started]. *)
Theorem start_after_start_is_refused (env : Env) (w : World)
    (first second : option Z) :
  let w1 := (start env first w).2 in
  start env second w1 = (Raise (AssertionError EmptyString), w1)
  ∧ start env second (stop w1).2
    = (Raise (AssertionError EmptyString), (stop w1).2).
Proof.
  cbv zeta. split.
  - rewrite (start_cases env (start env first w).2), start_sets_started.
    reflexivity.
  - rewrite (start_cases env (stop (start env first w).2).2).
    destruct (stop_frame (start env first w).2) as [-> _].
    rewrite start_sets_started. reflexivity.
Qed.

(** When the fan-out raises (as in the parent process, where
    [fork_processes] ends in [sys.exit()]), [start] raises the same
    exception after having set [_started]: the server is marked started,
    the queue is left as it was and nothing is registered. *)
Theorem failed_fan_out_leaves_server_started (env : Env) (w : World)
    (num_processes : option Z) (e : exn) :
  _started (self w) = false →
  num_processes ≠ Some 1 →
  process_fork_processes env num_processes = Raise e →
  start env num_processes w
  = (Raise e,
     {| self := set_started true (self w);
        trace := trace w ++ [fork_processes num_processes] |})
  ∧ _started (self (start env num_processes w).2) = true
  ∧ _pending_sockets (self (start env num_processes w).2)
    = _pending_sockets (self w)
  ∧ _sockets (self (start env num_processes w).2) = _sockets (self w)
  ∧ trace (start env num_processes w).2
    = trace w ++ [fork_processes num_processes].
Proof.
  intros Hstarted Hmany Hfork.
  rewrite start_cases, Hstarted, decide_False, Hfork by exact Hmany.
  split; [reflexivity|]. split; [reflexivity|]. split; [reflexivity|].
  split; reflexivity.
Qed.

(** The queued sockets of the listening server survive a failed fan-out. *)
Lemma failed_fan_out_leaves_server_started_witness :
  _started (self Sample.listening_world) = false
  ∧ Some 4 ≠ Some 1
  ∧ process_fork_processes Scenario.parent_env (Some 4) = Raise SystemExit
  ∧ start Scenario.parent_env (Some 4) Sample.listening_world
    = (Raise SystemExit,
       {| self := set_started true (self Sample.listening_world);
          trace := trace Sample.listening_world ++ [fork_processes (Some 4)]
       |})
  ∧ _started
      (self (start Scenario.parent_env (Some 4) Sample.listening_world).2)
    = true
  ∧ _pending_sockets
      (self (start Scenario.parent_env (Some 4) Sample.listening_world).2)
    = _pending_sockets (self Sample.listening_world)
  ∧ _sockets
      (self (start Scenario.parent_env (Some 4) Sample.listening_world).2)
    = _sockets (self Sample.listening_world)
  ∧ trace (start Scenario.parent_env (Some 4) Sample.listening_world).2
    = trace Sample.listening_world ++ [fork_processes (Some 4)].
Proof.
  split; [reflexivity|]. split; [discriminate|]. split; [reflexivity|].
  apply (failed_fan_out_leaves_server_started Scenario.parent_env
           Sample.listening_world (Some 4) SystemExit).
  - reflexivity.
  - discriminate.
  - reflexivity.
Defined.

(** A first [start] whose fan-out (if any) returns calls [fork_processes]
    only when [num_processes] is not 1, once, before any registration; it
    then registers the queued sockets in the order they were queued, on the
    server's [io_loop], or on [IOLoop.current()] if the server had none. *)
Theorem start_forks_then_registers_in_queue_order (env : Env) (w : World)
    (num_processes : option Z) :
  _started (self w) = false →
  (num_processes ≠ Some 1 →
   ∃ n, process_fork_processes env num_processes = Ok n) →
  trace (start env num_processes w).2
  = trace w
    ++ (if decide (num_processes = Some 1) then []
        else [fork_processes num_processes])
    ++ ((λ s, add_accept_handler s
                (Some (default (IOLoop_current env) (io_loop (self w)))))
          <$> _pending_sockets (self w))
  ∧ io_loop (self (start env num_processes w).2)
    = Some (default (IOLoop_current env) (io_loop (self w))).
Proof.
  intros Hstarted Hfork. rewrite start_cases, Hstarted.
  destruct (decide (num_processes = Some 1)) as [Hone|Hmany].
  - rewrite add_sockets_eq. split; reflexivity.
  - destruct (Hfork Hmany) as [n ->]. rewrite add_sockets_eq.
    cbn [snd self trace]. rewrite <- app_assoc. split; reflexivity.
Qed.

(** [start(0)] on the listening server: the fan-out, then descriptors 4
    and 5. *)
Lemma start_forks_then_registers_in_queue_order_witness :
  _started (self Sample.listening_world) = false
  ∧ trace (start Sample.env (Some 0) Sample.listening_world).2
    = [add_accept_handler Sample.sock3 (Some Sample.loop0);
       fork_processes (Some 0);
       add_accept_handler Sample.sock4 (Some Sample.loop0);
       add_accept_handler Sample.sock5 (Some Sample.loop0)].
Proof.
  split; [reflexivity|].
  apply (start_forks_then_registers_in_queue_order Sample.env
           Sample.listening_world (Some 0) eq_refl).
  intros _. exists 0. reflexivity.
Defined.

(** ** [add_sockets] *)

Lemma last_filter_cons (fd : Z) (s : Socket) (l : list Socket) :
  last (filter (λ s', fileno s' = fd) (s :: l))
  = match last (filter (λ s', fileno s' = fd) l) with
    | Some s' => Some s'
    | None => if decide (fileno s = fd) then Some s else None
    end.
Proof.
  rewrite filter_cons. destruct (decide (fileno s = fd)) as [Heq|Hne].
  - destruct (filter (λ s', fileno s' = fd) l) as [|s' l'] eqn:Hl;
      [reflexivity|].
    rewrite last_cons. destruct (last (s' :: l')) eqn:Hlast; [reflexivity|].
    apply last_None in Hlast. discriminate.
  - destruct (last (filter (λ s', fileno s' = fd) l)); reflexivity.
Qed.

Lemma lookup_foldl_insert_last (sockets : list Socket) :
  ∀ (m : gmap Z Socket) (fd : Z),
    foldl (λ m s, <[fileno s := s]> m) m sockets !! fd
    = match last (filter (λ s, fileno s = fd) sockets) with
      | Some s => Some s
      | None => m !! fd
      end.
Proof.
  induction sockets as [|s sockets IH]; intros m fd; [reflexivity|].
  cbn [foldl]. rewrite IH, last_filter_cons.
  destruct (last (filter (λ s', fileno s' = fd) sockets)); [reflexivity|].
  destruct (decide (fileno s = fd)) as [<-|Hne].
  - apply lookup_insert_eq.
  - apply lookup_insert_ne. exact Hne.
Qed.

(** [add_sockets] touches neither the queue, nor the started flag, nor the
    configuration, and keeps an [io_loop] that is already set; with an empty
    list it tracks and registers nothing, but still adopts
    [IOLoop.current()] when the server had no [io_loop]. *)
Theorem add_sockets_frame (env : Env) (w : World) (sockets : list Socket) :
  let w' := (add_sockets env sockets w).2 in
  _pending_sockets (self w') = _pending_sockets (self w)
  ∧ _started (self w') = _started (self w)
  ∧ ssl_options (self w') = ssl_options (self w)
  ∧ max_buffer_size (self w') = max_buffer_size (self w)
  ∧ read_chunk_size (self w') = read_chunk_size (self w)
  ∧ io_loop (self w')
    = Some (default (IOLoop_current env) (io_loop (self w)))
  ∧ (sockets = [] →
     _sockets (self w') = _sockets (self w) ∧ trace w' = trace w).
Proof.
  cbv zeta. rewrite add_sockets_eq. cbn [snd self trace].
  repeat (split; [reflexivity|]).
  intros ->. cbn. rewrite app_nil_r. split; reflexivity.
Qed.

(** ** [listen] and [bind] *)

(** [listen] does not look at [_started]: when [bind_sockets] returns, the
    new sockets are tracked and registered at once, and the queue and the
    started flag are left alone; when [bind_sockets] raises, [listen] raises
    the same exception and changes nothing. *)
Theorem listen_registers_without_start (env : Env) (w : World)
    (port : Z) (address : string) :
  match bind_sockets env port (Some address) 0 128 with
  | Ok sockets =>
      ∃ w',
        listen env port address w = (Ok tt, w')
        ∧ _started (self w') = _started (self w)
        ∧ _pending_sockets (self w') = _pending_sockets (self w)
        ∧ trace w'
          = trace w
            ++ ((λ s, add_accept_handler s (io_loop (self w'))) <$> sockets)
        ∧ ∀ sock, sock ∈ sockets →
            is_Some (_sockets (self w') !! fileno sock)
  | Raise e => listen env port address w = (Raise e, w)
  end.
Proof.
  unfold listen. unfold mbind at 1, M_bind at 1. unfold lift at 1.
  destruct (bind_sockets env port (Some address) 0 128) as [sockets|e];
    [|reflexivity].
  rewrite add_sockets_eq. eexists. split; [reflexivity|].
  cbn [self trace]. repeat (split; [reflexivity|]).
  intros sock Hin. cbn. apply lookup_foldl_insert_is_Some. right.
  apply list_elem_of_fmap. exists sock. split; [reflexivity|exact Hin].
Qed.

(** When [bind_sockets] raises, [bind] raises the same exception and leaves
    the object and the log as they were, started or not. *)
Lemma bind_failure (env : Env) (w : World) (port : Z)
    (address : option string) (family backlog : Z) (e : exn) :
  bind_sockets env port address family backlog = Raise e →
  bind env port address family backlog w = (Raise e, w).
Proof.
  intros Hbind. unfold bind. unfold mbind at 1, M_bind at 1.
  unfold lift at 1. rewrite Hbind. reflexivity.
Qed.

Lemma bind_not_started (env : Env) (w : World) (port : Z)
    (address : option string) (family backlog : Z) (sockets : list Socket) :
  bind_sockets env port address family backlog = Ok sockets →
  _started (self w) = false →
  bind env port address family backlog w
  = (Ok tt,
     {| self :=
          set_pending_sockets (_pending_sockets (self w) ++ sockets) (self w);
        trace := trace w |}).
Proof.
  intros Hbind Hstarted. unfold bind. unfold mbind at 1, M_bind at 1.
  unfold lift at 1. rewrite Hbind. unfold mbind at 1, M_bind at 1.
  unfold get_self at 1. rewrite Hstarted. reflexivity.
Qed.

Lemma bind_started (env : Env) (w : World) (port : Z)
    (address : option string) (family backlog : Z) (sockets : list Socket) :
  bind_sockets env port address family backlog = Ok sockets →
  _started (self w) = true →
  bind env port address family backlog w = add_sockets env sockets w.
Proof.
  intros Hbind Hstarted. unfold bind. unfold mbind at 1, M_bind at 1.
  unfold lift at 1. rewrite Hbind. unfold mbind at 1, M_bind at 1.
  unfold get_self at 1. rewrite Hstarted. reflexivity.
Qed.

(** Two [bind] calls before [start(1)]: [start] returns with the queue
    empty, having registered what was queued before, then the sockets of
    the first [bind], then those of the second, and nothing else. *)
Theorem binds_then_start_register_in_binding_order (env : Env) (w : World)
    (port1 port2 : Z) (address1 address2 : option string)
    (family1 family2 backlog1 backlog2 : Z) (sockets1 sockets2 : list Socket) :
  _started (self w) = false →
  bind_sockets env port1 address1 family1 backlog1 = Ok sockets1 →
  bind_sockets env port2 address2 family2 backlog2 = Ok sockets2 →
  let w1 := (bind env port1 address1 family1 backlog1 w).2 in
  let w2 := (bind env port2 address2 family2 backlog2 w1).2 in
  ∃ w3,
    start env (Some 1) w2 = (Ok tt, w3)
    ∧ _pending_sockets (self w3) = []
    ∧ trace w3
      = trace w
        ++ ((λ s, add_accept_handler s (io_loop (self w3)))
              <$> (_pending_sockets (self w) ++ sockets1 ++ sockets2)).
Proof.
  intros Hstarted Hbind1 Hbind2. cbv zeta.
  rewrite (bind_not_started env w _ _ _ _ sockets1 Hbind1 Hstarted).
  cbn [snd].
  rewrite (bind_not_started env _ _ _ _ _ sockets2 Hbind2) by exact Hstarted.
  cbn [snd]. rewrite start_cases. cbn [self _started set_pending_sockets].
  rewrite Hstarted, decide_True by reflexivity.
  rewrite add_sockets_eq. eexists. split; [reflexivity|].
  cbn [self trace]. split; [reflexivity|].
  cbn. rewrite <- app_assoc. reflexivity.
Qed.

(** [bind(8888)] and [bind(8889)] on a new server, then [start()]. *)
Lemma binds_then_start_register_in_binding_order_witness :
  _started (self (Sample.fresh Sample.plain_server)) = false
  ∧ bind_sockets Scenario.two_port_env 8888 None 0 128 = Ok [Sample.sock4]
  ∧ bind_sockets Scenario.two_port_env 8889 None 0 128 = Ok [Sample.sock5]
  ∧ ∃ w3,
      start Scenario.two_port_env (Some 1)
        (bind Scenario.two_port_env 8889 None 0 128
           (bind Scenario.two_port_env 8888 None 0 128
              (Sample.fresh Sample.plain_server)).2).2
      = (Ok tt, w3)
      ∧ _pending_sockets (self w3) = []
      ∧ trace w3
        = trace (Sample.fresh Sample.plain_server)
          ++ ((λ s, add_accept_handler s (io_loop (self w3)))
                <$> (_pending_sockets (self (Sample.fresh Sample.plain_server))
                     ++ [Sample.sock4] ++ [Sample.sock5])).
Proof.
  split; [reflexivity|]. split; [reflexivity|]. split; [reflexivity|].
  exact (binds_then_start_register_in_binding_order Scenario.two_port_env
           (Sample.fresh Sample.plain_server) 8888 8889 None None 0 0 128 128
           [Sample.sock4] [Sample.sock5] eq_refl eq_refl eq_refl).
Defined.

(** ** Invariants kept by every sequence of calls *)

Lemma last_filter_Some (fd : Z) (sockets : list Socket) (sock : Socket) :
  last (filter (λ s, fileno s = fd) sockets) = Some sock →
  fileno sock = fd ∧ sock ∈ sockets.
Proof.
  intros Hlast.
  assert (Hin : sock ∈ filter (λ s, fileno s = fd) sockets).
  { apply last_Some in Hlast as [l' ->]. apply elem_of_app. right.
    constructor. }
  apply list_elem_of_filter in Hin. exact Hin.
Qed.

Lemma registry_ok_add_sockets (env : Env) (w : World)
    (sockets : list Socket) :
  registry_ok w → registry_ok (add_sockets env sockets w).2.
Proof.
  intros [Hloop Htracked]. rewrite add_sockets_eq. split.
  - cbn. discriminate.
  - intros fd sock. cbn [snd self trace]. cbn.
    rewrite lookup_foldl_insert_last.
    destruct (last (filter (λ s, fileno s = fd) sockets)) as [s|] eqn:Hlast.
    + intros [= ->]. apply last_filter_Some in Hlast as [_ Hin].
      apply elem_of_app. right.
      apply list_elem_of_fmap. exists sock. split; [reflexivity|exact Hin].
    + intros Hold. pose proof (Htracked fd sock Hold) as Hev.
      apply elem_of_app. left.
      destruct (io_loop (self w)) as [loop|] eqn:Hl; [exact Hev|].
      rewrite (Hloop eq_refl), lookup_empty in Hold. discriminate.
Qed.

Lemma registry_ok_frame (w w' : World) (evs : list Event) :
  io_loop (self w') = io_loop (self w) →
  _sockets (self w') = _sockets (self w) →
  trace w' = trace w ++ evs →
  registry_ok w → registry_ok w'.
Proof.
  intros Hl Hs Ht [Hloop Htracked]. unfold registry_ok.
  rewrite Hl, Hs, Ht. split; [exact Hloop|].
  intros fd sock Hlook. apply elem_of_app. left.
  exact (Htracked fd sock Hlook).
Qed.

Lemma registry_ok_run_call (env : Env) (c : Call) (w : World) :
  registry_ok w → registry_ok (run_call env c w).2.
Proof.
  intros Hok. destruct c as [port address|sockets|socket
                             |port address family backlog|n|]; cbn [run_call].
  - unfold listen. unfold mbind at 1, M_bind at 1. unfold lift at 1.
    destruct (bind_sockets env port (Some address) 0 128) as [sockets|e];
      [|exact Hok].
    apply registry_ok_add_sockets. exact Hok.
  - apply registry_ok_add_sockets. exact Hok.
  - apply registry_ok_add_sockets. exact Hok.
  - destruct (bind_sockets env port address family backlog)
      as [sockets|e] eqn:Hbind.
    + destruct (_started (self w)) eqn:Hstarted.
      * rewrite (bind_started env w _ _ _ _ sockets Hbind Hstarted).
        apply registry_ok_add_sockets. exact Hok.
      * rewrite (bind_not_started env w _ _ _ _ sockets Hbind Hstarted).
        apply (registry_ok_frame w _ []); try reflexivity; [|exact Hok].
        symmetry. apply app_nil_r.
    + rewrite (bind_failure env w _ _ _ _ e Hbind). exact Hok.
  - rewrite start_cases. destruct (_started (self w)); [exact Hok|].
    destruct (decide (n = Some 1)).
    + apply registry_ok_add_sockets.
      apply (registry_ok_frame w _ []); try reflexivity; [|exact Hok].
      symmetry. apply app_nil_r.
    + destruct (process_fork_processes env n).
      * apply registry_ok_add_sockets.
        apply (registry_ok_frame w _ [fork_processes n]);
          try reflexivity; exact Hok.
      * apply (registry_ok_frame w _ [fork_processes n]);
          try reflexivity; exact Hok.
  - destruct (stop_frame w) as [Hself (evs & Htrace & _)].
    apply (registry_ok_frame w _ evs); [rewrite Hself; reflexivity ..| |];
      [exact Htrace|exact Hok].
Qed.

Lemma registry_ok_run_calls (env : Env) (cs : list Call) :
  ∀ w, registry_ok w → registry_ok (run_calls env cs w).
Proof.
  induction cs as [|c cs IH]; intros w Hok; [exact Hok|].
  cbn [run_calls]. apply IH, registry_ok_run_call. exact Hok.
Qed.

(** On a server built by the constructor, after any sequence of [listen],
    [add_sockets], [add_socket], [bind], [start] and [stop] calls, whatever
    their outcomes: [io_loop] is set as soon as something is tracked in
    [_sockets], and for every tracked socket a call to [add_accept_handler]
    was made with that [io_loop]. *)
Theorem registry_invariant_after_any_calls (env : Env)
    (loop : option IOLoop) (opts : option SSLOptions) (mbs rcs : option Z)
    (srv : TCPServer) (cs : list Call) :
  __init__ env loop opts mbs rcs = Ok srv →
  let w := run_calls env cs {| self := srv; trace := [] |} in
  (io_loop (self w) = None → _sockets (self w) = ∅)
  ∧ ∀ fd sock, _sockets (self w) !! fd = Some sock →
      add_accept_handler sock (io_loop (self w)) ∈ trace w.
Proof.
  intros Hinit. apply init_attributes in Hinit as ->.
  apply (registry_ok_run_calls env cs). split; [reflexivity|].
  intros fd sock Hlook. cbn in Hlook. rewrite lookup_empty in Hlook.
  discriminate.
Qed.

(** [listen(8888)] then [stop()] on a new server: descriptor 4 is still
    tracked, and its registration call is in the log. *)
Lemma registry_invariant_after_any_calls_witness :
  __init__ Sample.env None None None None = Ok Sample.plain_server
  ∧ _sockets
      (self (run_calls Sample.env
               [call_listen 8888 EmptyString; call_stop]
               {| self := Sample.plain_server; trace := [] |})) !! 4
    = Some Sample.sock4
  ∧ add_accept_handler Sample.sock4
      (io_loop
         (self (run_calls Sample.env
                  [call_listen 8888 EmptyString; call_stop]
                  {| self := Sample.plain_server; trace := [] |})))
    ∈ trace (run_calls Sample.env
               [call_listen 8888 EmptyString; call_stop]
               {| self := Sample.plain_server; trace := [] |}).
Proof.
  split; [reflexivity|].
  destruct (registry_invariant_after_any_calls Sample.env None None None
              None Sample.plain_server
              [call_listen 8888 EmptyString; call_stop] eq_refl)
    as [_ Htracked].
  assert (Hlook :
    _sockets
      (self (run_calls Sample.env
               [call_listen 8888 EmptyString; call_stop]
               {| self := Sample.plain_server; trace := [] |})) !! 4
    = Some Sample.sock4) by (vm_compute; reflexivity).
  split; [exact Hlook|]. exact (Htracked 4 Sample.sock4 Hlook).
Defined.

(** So [stop] never raises on a server built by the constructor and driven
    through the public calls, although it dereferences [io_loop]: it
    returns normally after any sequence of calls. *)
Theorem stop_returns_after_any_calls (env : Env)
    (loop : option IOLoop) (opts : option SSLOptions) (mbs rcs : option Z)
    (srv : TCPServer) (cs : list Call) :
  __init__ env loop opts mbs rcs = Ok srv →
  (stop (run_calls env cs {| self := srv; trace := [] |})).1 = Ok tt.
Proof.
  intros Hinit. apply init_attributes in Hinit as ->.
  assert (Hok : registry_ok
    (run_calls env cs
       {| self :=
            {| io_loop := loop; ssl_options := opts; _sockets := ∅;
               _pending_sockets := []; _started := false;
               max_buffer_size := mbs; read_chunk_size := None |};
          trace := [] |})).
  { apply registry_ok_run_calls. split; [reflexivity|].
    intros fd sock Hlook. cbn in Hlook. rewrite lookup_empty in Hlook.
    discriminate. }
  destruct Hok as [Hloop _]. rewrite stop_eq.
  destruct (io_loop (self _)) as [l|] eqn:Hl; [reflexivity|].
  rewrite (Hloop eq_refl), map_to_list_empty. reflexivity.
Qed.

(** [listen(8888)] on a new server, then [stop()]: two sockets are tracked,
    so [stop] goes through [self.io_loop.remove_handler]. *)
Lemma stop_returns_after_any_calls_witness :
  __init__ Sample.env None None None None = Ok Sample.plain_server
  ∧ io_loop
      (self (run_calls Sample.env [call_listen 8888 EmptyString]
               {| self := Sample.plain_server; trace := [] |}))
    = Some Sample.loop0
  ∧ _sockets
      (self (run_calls Sample.env [call_listen 8888 EmptyString]
               {| self := Sample.plain_server; trace := [] |})) !! 4
    = Some Sample.sock4
  ∧ (stop (run_calls Sample.env [call_listen 8888 EmptyString]
             {| self := Sample.plain_server; trace := [] |})).1 = Ok tt.
Proof.
  split; [reflexivity|]. split; [reflexivity|].
  split; [vm_compute; reflexivity|].
  exact (stop_returns_after_any_calls Sample.env None None None None
           Sample.plain_server [call_listen 8888 EmptyString] eq_refl).
Defined.

(** What no call changes, and what only grows. *)
Lemma run_call_frame (env : Env) (c : Call) (w : World) :
  let w' := (run_call env c w).2 in
  ssl_options (self w') = ssl_options (self w)
  ∧ max_buffer_size (self w') = max_buffer_size (self w)
  ∧ read_chunk_size (self w') = read_chunk_size (self w)
  ∧ (∀ l, io_loop (self w) = Some l → io_loop (self w') = Some l)
  ∧ (_started (self w) = true → _started (self w') = true)
  ∧ (∀ fd, is_Some (_sockets (self w) !! fd) →
       is_Some (_sockets (self w') !! fd))
  ∧ ∃ evs, trace w' = trace w ++ evs.
Proof.
  assert (Hsame : ∀ w0 : World,
    ssl_options (self w0) = ssl_options (self w0)
    ∧ max_buffer_size (self w0) = max_buffer_size (self w0)
    ∧ read_chunk_size (self w0) = read_chunk_size (self w0)
    ∧ (∀ l, io_loop (self w0) = Some l → io_loop (self w0) = Some l)
    ∧ (_started (self w0) = true → _started (self w0) = true)
    ∧ (∀ fd, is_Some (_sockets (self w0) !! fd) →
         is_Some (_sockets (self w0) !! fd))
    ∧ ∃ evs, trace w0 = trace w0 ++ evs).
  { intros w0. repeat (split; [tauto|]). exists []. symmetry.
    apply app_nil_r. }
  assert (Hadd : ∀ (w0 : World) (sockets : list Socket) (evs0 : list Event),
    ssl_options (self w0) = ssl_options (self w) →
    max_buffer_size (self w0) = max_buffer_size (self w) →
    read_chunk_size (self w0) = read_chunk_size (self w) →
    io_loop (self w0) = io_loop (self w) →
    (_started (self w) = true → _started (self w0) = true) →
    _sockets (self w0) = _sockets (self w) →
    trace w0 = trace w ++ evs0 →
    let w' := (add_sockets env sockets w0).2 in
    ssl_options (self w') = ssl_options (self w)
    ∧ max_buffer_size (self w') = max_buffer_size (self w)
    ∧ read_chunk_size (self w') = read_chunk_size (self w)
    ∧ (∀ l, io_loop (self w) = Some l → io_loop (self w') = Some l)
    ∧ (_started (self w) = true → _started (self w') = true)
    ∧ (∀ fd, is_Some (_sockets (self w) !! fd) →
         is_Some (_sockets (self w') !! fd))
    ∧ ∃ evs, trace w' = trace w ++ evs).
  { intros w0 sockets evs0 Ho Hm Hr Hl Hs Hreg Ht. cbv zeta.
    rewrite add_sockets_eq. cbn [snd self trace].
    split; [exact Ho|]. split; [exact Hm|]. split; [exact Hr|].
    split; [|split; [exact Hs|split]].
    - intros l Hsome. cbn. rewrite Hl, Hsome. reflexivity.
    - intros fd Hin. cbn. apply lookup_foldl_insert_is_Some. left.
      rewrite Hreg. exact Hin.
    - eexists. rewrite Ht, <- app_assoc. reflexivity. }
  destruct c as [port address|sockets|socket
                 |port address family backlog|n|]; cbn [run_call].
  - unfold listen. unfold mbind at 1, M_bind at 1. unfold lift at 1.
    destruct (bind_sockets env port (Some address) 0 128) as [sockets|e];
      [|apply Hsame].
    apply (Hadd w sockets []); try reflexivity; [tauto|].
    symmetry. apply app_nil_r.
  - apply (Hadd w sockets []); try reflexivity; [tauto|].
    symmetry. apply app_nil_r.
  - apply (Hadd w [socket] []); try reflexivity; [tauto|].
    symmetry. apply app_nil_r.
  - destruct (bind_sockets env port address family backlog)
      as [sockets|e] eqn:Hbind.
    + destruct (_started (self w)) eqn:Hstarted.
      * rewrite (bind_started env w _ _ _ _ sockets Hbind Hstarted).
        apply (Hadd w sockets []); try reflexivity; [tauto|].
        symmetry. apply app_nil_r.
      * rewrite (bind_not_started env w _ _ _ _ sockets Hbind Hstarted).
        cbv zeta. cbn [snd self trace].
        repeat (split; [first [reflexivity|tauto|discriminate]|]).
        exists []. symmetry. apply app_nil_r.
    + rewrite (bind_failure env w _ _ _ _ e Hbind). apply Hsame.
  - rewrite start_cases. destruct (_started (self w)) eqn:Hstarted.
    { cbv zeta. cbn [snd].
      repeat (split; [first [tauto|intros _; exact Hstarted]|]).
      exists []. symmetry. apply app_nil_r. }
    destruct (decide (n = Some 1)).
    + apply (Hadd _ _ []);
        first [reflexivity|discriminate|symmetry; apply app_nil_r].
    + destruct (process_fork_processes env n).
      * apply (Hadd _ _ [fork_processes n]);
          first [reflexivity|discriminate].
      * cbv zeta. cbn [snd self trace].
        repeat (split; [first [reflexivity|tauto|discriminate]|]).
        exists [fork_processes n]. reflexivity.
  - destruct (stop_frame w) as [Hself (evs & Htrace & _)]. cbv zeta.
    rewrite Hself. repeat (split; [tauto|]). exists evs. exact Htrace.
Qed.

Lemma run_calls_frame (env : Env) (cs : list Call) :
  ∀ w,
    let w' := run_calls env cs w in
    ssl_options (self w') = ssl_options (self w)
    ∧ max_buffer_size (self w') = max_buffer_size (self w)
    ∧ read_chunk_size (self w') = read_chunk_size (self w)
    ∧ (∀ l, io_loop (self w) = Some l → io_loop (self w') = Some l)
    ∧ (_started (self w) = true → _started (self w') = true)
    ∧ (∀ fd, is_Some (_sockets (self w) !! fd) →
         is_Some (_sockets (self w') !! fd))
    ∧ ∃ evs, trace w' = trace w ++ evs.
Proof.
  induction cs as [|c cs IH]; intros w.
  - cbn. repeat (split; [tauto|]). exists []. symmetry. apply app_nil_r.
  - cbn [run_calls]. cbv zeta.
    destruct (run_call_frame env c w) as (Ho & Hm & Hr & Hl & Hs & Hd & evs
                                          & Ht).
    destruct (IH (run_call env c w).2) as (Ho' & Hm' & Hr' & Hl' & Hs' & Hd'
                                           & evs' & Ht').
    split; [congruence|]. split; [congruence|]. split; [congruence|].
    split; [auto|]. split; [auto|]. split; [auto|].
    exists (evs ++ evs'). rewrite Ht', Ht, <- app_assoc. reflexivity.
Qed.

(** No sequence of [listen], [add_sockets], [add_socket], [bind], [start]
    and [stop] calls changes [ssl_options], [max_buffer_size] or
    [read_chunk_size], and an [io_loop] that is set is never replaced. *)
Theorem configuration_survives_any_calls (env : Env) (cs : list Call)
    (w : World) :
  ssl_options (self (run_calls env cs w)) = ssl_options (self w)
  ∧ max_buffer_size (self (run_calls env cs w)) = max_buffer_size (self w)
  ∧ read_chunk_size (self (run_calls env cs w)) = read_chunk_size (self w)
  ∧ ∀ l, io_loop (self w) = Some l →
      io_loop (self (run_calls env cs w)) = Some l.
Proof.
  destruct (run_calls_frame env cs w) as (Ho & Hm & Hr & Hl & _).
  split; [exact Ho|]. split; [exact Hm|]. split; [exact Hr|exact Hl].
Qed.

(** No sequence of calls undoes a start, untracks a descriptor or rewrites
    the log: a started server stays started (through [stop] too), a
    descriptor that is a key of [_sockets] stays one, and the calls already
    made to the collaborators stay a prefix of the log. *)
Theorem lifecycle_only_moves_forward (env : Env) (cs : list Call)
    (w : World) :
  (_started (self w) = true → _started (self (run_calls env cs w)) = true)
  ∧ (∀ fd, is_Some (_sockets (self w) !! fd) →
       is_Some (_sockets (self (run_calls env cs w)) !! fd))
  ∧ ∃ evs, trace (run_calls env cs w) = trace w ++ evs.
Proof.
  destruct (run_calls_frame env cs w) as (_ & _ & _ & _ & Hs & Hd & Ht).
  split; [exact Hs|]. split; [exact Hd|exact Ht].
Qed.

(** The started server, stopped, started again and bound again: still
    started, descriptor 3 still tracked. *)
Lemma lifecycle_only_moves_forward_witness :
  _started (self Sample.started_world) = true
  ∧ is_Some (_sockets (self Sample.started_world) !! 3)
  ∧ _started
      (self (run_calls Sample.env
               [call_stop; call_start (Some 1); call_bind 8888 None 0 128]
               Sample.started_world)) = true
  ∧ is_Some
      (_sockets
         (self (run_calls Sample.env
                  [call_stop; call_start (Some 1); call_bind 8888 None 0 128]
                  Sample.started_world)) !! 3).
Proof.
  assert (Htracked : is_Some (_sockets (self Sample.started_world) !! 3))
    by (eexists; apply lookup_singleton_eq).
  destruct (lifecycle_only_moves_forward Sample.env
              [call_stop; call_start (Some 1); call_bind 8888 None 0 128]
              Sample.started_world) as (Hstarted & Hkeys & _).
  split; [reflexivity|]. split; [exact Htracked|].
  split; [exact (Hstarted eq_refl)|exact (Hkeys 3 Htracked)].
Defined.

(** ** What one [stop] does to each tracked socket *)

Lemma deregistrations_app (fd : Z) (tr1 tr2 : list Event) :
  deregistrations fd (tr1 ++ tr2)
  = (deregistrations fd tr1 + deregistrations fd tr2)%nat.
Proof.
  induction tr1 as [|ev tr1 IH]; [reflexivity|].
  destruct ev; cbn [app deregistrations]; rewrite IH; lia.
Qed.

Lemma closes_app (sock : Socket) (tr1 tr2 : list Event) :
  closes sock (tr1 ++ tr2) = (closes sock tr1 + closes sock tr2)%nat.
Proof.
  induction tr1 as [|ev tr1 IH]; [reflexivity|].
  destruct ev; cbn [app closes]; rewrite IH; lia.
Qed.

Lemma stop_calls_cons (loop : IOLoop) (fd : Z) (sock : Socket)
    (items : list (Z * Socket)) :
  stop_calls loop ((fd, sock) :: items)
  = remove_handler loop fd :: sock_close sock :: stop_calls loop items.
Proof. reflexivity. Qed.

Lemma length_stop_calls (loop : IOLoop) (items : list (Z * Socket)) :
  length (stop_calls loop items) = (2 * length items)%nat.
Proof.
  induction items as [|[fd sock] items IH]; [reflexivity|].
  rewrite stop_calls_cons. cbn [length]. rewrite IH. lia.
Qed.

Lemma deregistrations_stop_calls_fresh (loop : IOLoop) (fd : Z)
    (items : list (Z * Socket)) :
  fd ∉ items.*1 → deregistrations fd (stop_calls loop items) = 0%nat.
Proof.
  induction items as [|[fd' sock'] items IH]; [reflexivity|].
  rewrite fmap_cons, stop_calls_cons. cbn [fst deregistrations].
  intros Hnot. apply not_elem_of_cons in Hnot as [Hne Hnot].
  rewrite bool_decide_eq_false_2 by congruence. rewrite IH by exact Hnot.
  reflexivity.
Qed.

Lemma closes_stop_calls_fresh (loop : IOLoop) (sock : Socket)
    (items : list (Z * Socket)) :
  sock ∉ items.*2 → closes sock (stop_calls loop items) = 0%nat.
Proof.
  induction items as [|[fd' sock'] items IH]; [reflexivity|].
  rewrite fmap_cons, stop_calls_cons. cbn [snd closes].
  intros Hnot. apply not_elem_of_cons in Hnot as [Hne Hnot].
  rewrite bool_decide_eq_false_2 by congruence. rewrite IH by exact Hnot.
  reflexivity.
Qed.

Lemma stop_calls_once (loop : IOLoop) (items : list (Z * Socket))
    (fd : Z) (sock : Socket) :
  NoDup items.*1 →
  (∀ fd' sock', (fd', sock') ∈ items → fileno sock' = fd') →
  (fd, sock) ∈ items →
  deregistrations fd (stop_calls loop items) = 1%nat
  ∧ closes sock (stop_calls loop items) = 1%nat.
Proof.
  induction items as [|[fd0 sock0] items IH]; intros Hnodup Hkeys Hin.
  - inversion Hin.
  - rewrite fmap_cons in Hnodup. cbn [fst] in Hnodup.
    apply NoDup_cons in Hnodup as [Hfresh Hnodup].
    rewrite stop_calls_cons. cbn [deregistrations closes].
    assert (Hkeys' : ∀ fd' sock', (fd', sock') ∈ items → fileno sock' = fd').
    { intros fd' sock' Hin'. apply Hkeys. right. exact Hin'. }
    apply elem_of_cons in Hin as [[= -> ->]|Hin].
    + rewrite !bool_decide_eq_true_2 by reflexivity.
      rewrite deregistrations_stop_calls_fresh by exact Hfresh.
      rewrite closes_stop_calls_fresh; [split; reflexivity|].
      intros Hsock. apply list_elem_of_fmap in Hsock as [[fd' sock'] [Heq Hin']].
      cbn in Heq. subst sock'. apply Hfresh.
      assert (Hfd0 : fileno sock0 = fd0) by (apply Hkeys; left).
      rewrite <- Hfd0, (Hkeys' fd' sock0 Hin').
      apply list_elem_of_fmap. exists (fd', sock0).
      split; [reflexivity|exact Hin'].
    + assert (Hne : fd0 ≠ fd).
      { intros ->. apply Hfresh. apply list_elem_of_fmap.
        exists (fd, sock). split; [reflexivity|exact Hin]. }
      assert (Hne' : sock0 ≠ sock).
      { intros ->. apply Hne.
        rewrite <- (Hkeys fd0 sock (list_elem_of_here _ _)).
        apply (Hkeys' fd sock Hin). }
      rewrite !bool_decide_eq_false_2 by assumption.
      destruct (IH Hnodup Hkeys' Hin) as [-> ->]. split; reflexivity.
Qed.

(** On a server whose sockets are stored under their own descriptors, one
    [stop] removes the handler of every tracked descriptor exactly once and
    closes every tracked socket exactly once, makes no such call for an
    untracked descriptor, and makes two calls per entry in all. *)
Theorem stop_touches_each_tracked_socket_once (w : World) (loop : IOLoop) :
  io_loop (self w) = Some loop →
  (∀ fd sock, _sockets (self w) !! fd = Some sock → fileno sock = fd) →
  (∀ fd sock, _sockets (self w) !! fd = Some sock →
     deregistrations fd (trace (stop w).2) = S (deregistrations fd (trace w))
     ∧ closes sock (trace (stop w).2) = S (closes sock (trace w)))
  ∧ (∀ fd, _sockets (self w) !! fd = None →
       deregistrations fd (trace (stop w).2) = deregistrations fd (trace w))
  ∧ length (trace (stop w).2)
    = (length (trace w) + 2 * size (_sockets (self w)))%nat.
Proof.
  intros Hloop Hkeys. rewrite stop_eq, Hloop. cbn [snd trace].
  split; [|split].
  - intros fd sock Hlook. rewrite deregistrations_app, closes_app.
    destruct (stop_calls_once loop (map_to_list (_sockets (self w))) fd sock)
      as [-> ->].
    + apply NoDup_fst_map_to_list.
    + intros fd' sock' Hin. apply Hkeys, elem_of_map_to_list. exact Hin.
    + apply elem_of_map_to_list. exact Hlook.
    + split; lia.
  - intros fd Hnone. rewrite deregistrations_app.
    rewrite deregistrations_stop_calls_fresh; [lia|].
    intros Hin. apply list_elem_of_fmap in Hin as [[fd' sock'] [Heq Hin]].
    cbn in Heq. subst fd'. apply elem_of_map_to_list in Hin. congruence.
  - rewrite length_app, length_stop_calls, length_map_to_list. reflexivity.
Qed.

(** The listening server: descriptor 3 is deregistered and closed once,
    descriptor 4 (queued, not tracked) is not. *)
Lemma stop_touches_each_tracked_socket_once_witness :
  io_loop (self Sample.listening_world) = Some Sample.loop0
  ∧ deregistrations 3 (trace (stop Sample.listening_world).2) = 1%nat
  ∧ closes Sample.sock3 (trace (stop Sample.listening_world).2) = 1%nat
  ∧ deregistrations 4 (trace (stop Sample.listening_world).2) = 0%nat
  ∧ length (trace (stop Sample.listening_world).2) = 3%nat.
Proof.
  assert (Hkeys : ∀ fd sock,
    _sockets (self Sample.listening_world) !! fd = Some sock →
    fileno sock = fd).
  { intros fd sock Hlook. cbn in Hlook.
    apply lookup_singleton_Some in Hlook as [<- <-]. reflexivity. }
  destruct (stop_touches_each_tracked_socket_once Sample.listening_world
              Sample.loop0 eq_refl Hkeys) as (Htracked & Huntracked & Hlen).
  split; [reflexivity|].
  destruct (Htracked 3 Sample.sock3 (lookup_singleton_eq _ _)) as [Hd Hc].
  split; [exact Hd|]. split; [exact Hc|]. split.
  - apply (Huntracked 4). cbn. apply lookup_singleton_ne. discriminate.
  - rewrite Hlen. vm_compute. reflexivity.
Defined.

(** ** More on [_handle_connection] *)

(** The [except] clauses either close the connection and return, or raise
    and touch nothing. *)
Lemma wrap_except_outcomes (env : Env) (connection : Connection) (err : exn)
    (w : World) :
  wrap_except env connection err w
  = (Ok None,
     {| self := self w; trace := trace w ++ [connection_close connection] |})
  ∨ ∃ e, wrap_except env connection err w = (Raise e, w).
Proof.
  destruct err as [| | | | | |args|errno| | | |];
    try (right; eexists; reflexivity).
  - cbn [wrap_except]. destruct (args !! 0%nat) as [code|];
      [|right; eexists; reflexivity].
    destruct (decide (code = SSL_ERROR_EOF env));
      [left; reflexivity|right; eexists; reflexivity].
  - cbn [wrap_except].
    destruct (decide (errno_from_exception (socket_error errno)
                      = Some (ECONNABORTED env)
                      ∨ errno_from_exception (socket_error errno)
                        = Some (EINVAL env)));
      [left; reflexivity|right; eexists; reflexivity].
Qed.

(** When [ssl_wrap_socket] raises, whatever it raises, no stream is built
    and [handle_stream] is not called: the outcome does not depend on the
    class of the server, the object is unchanged, and the log is unchanged
    or extended by the single [close()] of the raw connection. *)
Theorem failed_tls_setup_never_dispatches (env : Env)
    (cls cls' : ServerClass) (connection : Connection) (address : Address)
    (w : World) (opts : SSLOptions) (err : exn) :
  ssl_options (self w) = Some opts → ssl env = true →
  ssl_wrap_socket env connection opts = Raise err →
  _handle_connection env cls connection address w
  = _handle_connection env cls' connection address w
  ∧ self (_handle_connection env cls connection address w).2 = self w
  ∧ (trace (_handle_connection env cls connection address w).2 = trace w
     ∨ trace (_handle_connection env cls connection address w).2
       = trace w ++ [connection_close connection]).
Proof.
  intros Hopts Hssl Hwrap.
  rewrite !(handle_connection_wrap_failed env _ connection address w opts err
              Hopts Hssl Hwrap).
  destruct (wrap_except_outcomes env connection err w) as [->|[e ->]].
  - split; [reflexivity|]. split; [reflexivity|]. right. reflexivity.
  - split; [reflexivity|]. split; [reflexivity|]. left. reflexivity.
Qed.

(** A connection reset at TLS setup, on two different classes. *)
Lemma failed_tls_setup_never_dispatches_witness :
  ssl_options (self (Sample.fresh Sample.tls_server)) = Some Sample.tls_options
  ∧ ssl_wrap_socket Sample.env {| conn_id := 4 |} Sample.tls_options
    = Raise (socket_error (Some 104))
  ∧ _handle_connection Sample.env Sample.failing_class {| conn_id := 4 |}
      Sample.peer (Sample.fresh Sample.tls_server)
    = _handle_connection Sample.env Sample.exiting_class {| conn_id := 4 |}
        Sample.peer (Sample.fresh Sample.tls_server).
Proof.
  split; [reflexivity|]. split; [reflexivity|].
  apply (failed_tls_setup_never_dispatches Sample.env Sample.failing_class
           Sample.exiting_class {| conn_id := 4 |} Sample.peer
           (Sample.fresh Sample.tls_server) Sample.tls_options
           (socket_error (Some 104)) eq_refl eq_refl eq_refl).
Defined.

(** On a TLS-configured server running where the [ssl] module could not be
    imported, every accepted connection makes the callback raise
    [AssertionError] at once: [ssl_wrap_socket] is not tried, the connection
    is not closed, nothing is logged and the handler is not called. *)
Theorem missing_ssl_module_fails_every_accept (env : Env) (cls : ServerClass)
    (connection : Connection) (address : Address) (w : World)
    (opts : SSLOptions) :
  ssl_options (self w) = Some opts → ssl env = false →
  _handle_connection env cls connection address w
  = (Raise (AssertionError "Python 2.6+ and OpenSSL required for SSL"), w).
Proof.
  intros Hopts Hssl. unfold _handle_connection.
  unfold mbind at 1, M_bind at 1. unfold get_self at 1.
  unfold mbind at 1, M_bind at 1. rewrite Hopts, Hssl. reflexivity.
Qed.

(** The TLS server on a Python without [ssl]. *)
Lemma missing_ssl_module_fails_every_accept_witness :
  ssl_options (self (Sample.fresh Sample.tls_server)) = Some Sample.tls_options
  ∧ ssl Scenario.no_ssl_env = false
  ∧ _handle_connection Scenario.no_ssl_env Sample.failing_class
      {| conn_id := 0 |} Sample.peer (Sample.fresh Sample.tls_server)
    = (Raise (AssertionError "Python 2.6+ and OpenSSL required for SSL"),
       Sample.fresh Sample.tls_server).
Proof.
  split; [reflexivity|]. split; [reflexivity|].
  exact (missing_ssl_module_fails_every_accept Scenario.no_ssl_env
           Sample.failing_class {| conn_id := 0 |} Sample.peer
           (Sample.fresh Sample.tls_server) Sample.tls_options
           eq_refl eq_refl).
Defined.

(** What the second [try] does before it calls [handle_stream]. *)
Lemma construct_and_dispatch_eq (env : Env) (cls : ServerClass)
    (c : Connection) (address : Address) (w : World) :
  let stream :=
    {| stream_class :=
         match ssl_options (self w) with
         | Some _ => SSLIOStream
         | None => IOStream
         end;
       stream_socket := c;
       stream_io_loop := io_loop (self w);
       stream_max_buffer_size := max_buffer_size (self w);
       stream_read_chunk_size := read_chunk_size (self w) |} in
  construct_and_dispatch env cls c address w
  = match stream_constructor env stream with
    | Some e =>
        (Raise e, {| self := self w; trace := trace w ++ [stream_init stream] |})
    | None =>
        handle_stream cls stream address
          {| self := self w;
             trace := trace w
                      ++ [stream_init stream;
                          handle_stream_call stream address] |}
    end.
Proof.
  intros stream. unfold construct_and_dispatch.
  unfold mbind at 1, M_bind at 1. unfold get_self at 1. fold stream.
  unfold mbind at 1, M_bind at 1. unfold emit at 1.
  unfold mbind at 1, M_bind at 1.
  destruct (stream_constructor env stream) as [e|]; [reflexivity|].
  unfold mret at 1, M_ret at 1. unfold mbind at 1, M_bind at 1.
  unfold emit at 1. cbn [self trace]. rewrite <- app_assoc. reflexivity.
Qed.

(** When the connection passes TLS negotiation and the stream constructor
    returns, [handle_stream] is called once, on a stream over the negotiated
    connection (the wrapped one under TLS) of class [SSLIOStream] exactly
    when TLS is configured, with the server's [io_loop] and
    [max_buffer_size]; if it returns, the callback returns in the state it
    left, and logs nothing. *)
Theorem handler_gets_the_configured_stream (env : Env) (cls : ServerClass)
    (connection c : Connection) (address : Address) (w w' : World) :
  let stream :=
    {| stream_class :=
         match ssl_options (self w) with
         | Some _ => SSLIOStream
         | None => IOStream
         end;
       stream_socket := c;
       stream_io_loop := io_loop (self w);
       stream_max_buffer_size := max_buffer_size (self w);
       stream_read_chunk_size := read_chunk_size (self w) |} in
  (ssl_options (self w) = None ∧ c = connection)
  ∨ (∃ opts, ssl_options (self w) = Some opts ∧ ssl env = true
             ∧ ssl_wrap_socket env connection opts = Ok c) →
  stream_constructor env stream = None →
  handle_stream cls stream address
    {| self := self w;
       trace := trace w ++ [stream_init stream;
                            handle_stream_call stream address] |}
  = (Ok tt, w') →
  _handle_connection env cls connection address w = (Ok tt, w').
Proof.
  intros stream Hpass Hctor Hhandler.
  rewrite (handle_connection_negotiated env cls connection c address w Hpass).
  unfold try_except. rewrite construct_and_dispatch_eq. fold stream.
  rewrite Hctor, Hhandler. reflexivity.
Qed.

(** When the stream constructor raises an instance of [Exception], the
    handler is not called, whatever the class: the callback logs the error
    and returns. *)
Theorem stream_constructor_failure_skips_handler (env : Env)
    (cls : ServerClass) (connection c : Connection) (address : Address)
    (w : World) (e : exn) :
  let stream :=
    {| stream_class :=
         match ssl_options (self w) with
         | Some _ => SSLIOStream
         | None => IOStream
         end;
       stream_socket := c;
       stream_io_loop := io_loop (self w);
       stream_max_buffer_size := max_buffer_size (self w);
       stream_read_chunk_size := read_chunk_size (self w) |} in
  (ssl_options (self w) = None ∧ c = connection)
  ∨ (∃ opts, ssl_options (self w) = Some opts ∧ ssl env = true
             ∧ ssl_wrap_socket env connection opts = Ok c) →
  stream_constructor env stream = Some e →
  isinstance_Exception e = true →
  _handle_connection env cls connection address w
  = (Ok tt,
     {| self := self w;
        trace := trace w
                 ++ [stream_init stream;
                     app_log_error "Error in connection callback"] |}).
Proof.
  intros stream Hpass Hctor Hexc.
  rewrite (handle_connection_negotiated env cls connection c address w Hpass).
  unfold try_except. rewrite construct_and_dispatch_eq. fold stream.
  rewrite Hctor, Hexc. unfold emit. cbn [self trace].
  rewrite <- app_assoc. reflexivity.
Qed.

(** A platform whose stream constructor fails with EBADF. *)
Lemma stream_constructor_failure_skips_handler_witness :
  let stream :=
    {| stream_class := IOStream; stream_socket := {| conn_id := 0 |};
       stream_io_loop := None; stream_max_buffer_size := None;
       stream_read_chunk_size := None |} in
  stream_constructor Scenario.broken_stream_env stream
  = Some (socket_error (Some 9))
  ∧ _handle_connection Scenario.broken_stream_env Sample.exiting_class
      {| conn_id := 0 |} Sample.peer (Sample.fresh Sample.plain_server)
    = (Ok tt,
       {| self := Sample.plain_server;
          trace := [] ++ [stream_init stream;
                          app_log_error "Error in connection callback"] |}).
Proof.
  cbv zeta. split; [reflexivity|].
  apply (stream_constructor_failure_skips_handler Scenario.broken_stream_env
           Sample.exiting_class {| conn_id := 0 |} {| conn_id := 0 |}
           Sample.peer (Sample.fresh Sample.plain_server)
           (socket_error (Some 9))).
  - left. split; reflexivity.
  - reflexivity.
  - reflexivity.
Defined.

(** An exception that is not an instance of [Exception], raised by the
    stream constructor or by [handle_stream], leaves the callback: it is
    raised out of [_handle_connection], in the state the failing call left,
    and nothing is logged. *)
Theorem non_Exception_leaves_the_callback (env : Env) (cls : ServerClass)
    (connection c : Connection) (address : Address) (w w' : World)
    (e : exn) :
  (ssl_options (self w) = None ∧ c = connection)
  ∨ (∃ opts, ssl_options (self w) = Some opts ∧ ssl env = true
             ∧ ssl_wrap_socket env connection opts = Ok c) →
  construct_and_dispatch env cls c address w = (Raise e, w') →
  isinstance_Exception e = false →
  _handle_connection env cls connection address w = (Raise e, w').
Proof.
  intros Hpass Hbody Hexc.
  rewrite (handle_connection_negotiated env cls connection c address w Hpass).
  unfold try_except. rewrite Hbody, Hexc. reflexivity.
Qed.

(** A handler that calls [sys.exit()], on a plain server. *)
Lemma non_Exception_leaves_the_callback_witness :
  isinstance_Exception SystemExit = false
  ∧ ∃ w',
      construct_and_dispatch Sample.env Sample.exiting_class
        {| conn_id := 0 |} Sample.peer (Sample.fresh Sample.plain_server)
      = (Raise SystemExit, w')
      ∧ _handle_connection Sample.env Sample.exiting_class {| conn_id := 0 |}
          Sample.peer (Sample.fresh Sample.plain_server)
        = (Raise SystemExit, w').
Proof.
  split; [reflexivity|].
  exists (construct_and_dispatch Sample.env Sample.exiting_class
            {| conn_id := 0 |} Sample.peer
            (Sample.fresh Sample.plain_server)).2.
  split; [reflexivity|].
  apply (non_Exception_leaves_the_callback Sample.env Sample.exiting_class
           {| conn_id := 0 |} {| conn_id := 0 |} Sample.peer
           (Sample.fresh Sample.plain_server)).
  - left. split; reflexivity.
  - reflexivity.
  - reflexivity.
Defined.

(** A TLS connection accepted by a class whose handler returns. *)
Lemma handler_gets_the_configured_stream_witness :
  let stream :=
    {| stream_class := SSLIOStream; stream_socket := {| conn_id := 100 |};
       stream_io_loop := None; stream_max_buffer_size := None;
       stream_read_chunk_size := None |} in
  ssl_wrap_socket Sample.env {| conn_id := 0 |} Sample.tls_options
  = Ok {| conn_id := 100 |}
  ∧ _handle_connection Sample.env Scenario.quiet_class {| conn_id := 0 |}
      Sample.peer (Sample.fresh Sample.tls_server)
    = (Ok tt,
       {| self := Sample.tls_server;
          trace := [] ++ [stream_init stream;
                          handle_stream_call stream Sample.peer] |}).
Proof.
  cbv zeta. split; [reflexivity|].
  apply (handler_gets_the_configured_stream Sample.env Scenario.quiet_class
           {| conn_id := 0 |} {| conn_id := 100 |} Sample.peer
           (Sample.fresh Sample.tls_server)).
  - right. exists Sample.tls_options.
    split; [reflexivity|]. split; reflexivity.
  - reflexivity.
  - reflexivity.
Defined.

(** A handler that fails on every connection does not keep the next
    connection from being dispatched: on a plain server whose stream
    constructor returns, two accepts in a row both return normally, and for
    each of them the stream is built, the handler is called and the error
    is logged. *)
Theorem failing_handler_does_not_stop_later_accepts (env : Env)
    (cls : ServerClass) (c1 c2 : Connection) (a1 a2 : Address) (w : World)
    (e : exn) :
  let stream := fun c =>
    {| stream_class := IOStream; stream_socket := c;
       stream_io_loop := io_loop (self w);
       stream_max_buffer_size := max_buffer_size (self w);
       stream_read_chunk_size := read_chunk_size (self w) |} in
  ssl_options (self w) = None →
  (∀ st, stream_constructor env st = None) →
  (∀ st a w0, handle_stream cls st a w0 = (Raise e, w0)) →
  isinstance_Exception e = true →
  ∃ w1,
    _handle_connection env cls c1 a1 w = (Ok tt, w1)
    ∧ _handle_connection env cls c2 a2 w1
      = (Ok tt,
         {| self := self w;
            trace :=
              trace w
              ++ [stream_init (stream c1); handle_stream_call (stream c1) a1;
                  app_log_error "Error in connection callback";
                  stream_init (stream c2); handle_stream_call (stream c2) a2;
                  app_log_error "Error in connection callback"] |}).
Proof.
  intros stream Hplain Hctor Hhandler Hexc.
  assert (Hone : ∀ c a w0,
    ssl_options (self w0) = None →
    _handle_connection env cls c a w0
    = (Ok tt,
       {| self := self w0;
          trace :=
            trace w0
            ++ [stream_init
                  {| stream_class := IOStream; stream_socket := c;
                     stream_io_loop := io_loop (self w0);
                     stream_max_buffer_size := max_buffer_size (self w0);
                     stream_read_chunk_size := read_chunk_size (self w0) |};
                handle_stream_call
                  {| stream_class := IOStream; stream_socket := c;
                     stream_io_loop := io_loop (self w0);
                     stream_max_buffer_size := max_buffer_size (self w0);
                     stream_read_chunk_size := read_chunk_size (self w0) |} a;
                app_log_error "Error in connection callback"] |})).
  { intros c a w0 Hnone.
    rewrite (handle_connection_negotiated env cls c c a w0)
      by (left; split; [exact Hnone|reflexivity]).
    unfold try_except. rewrite construct_and_dispatch_eq, Hnone.
    rewrite Hctor, Hhandler, Hexc. unfold emit. cbn [self trace].
    rewrite <- app_assoc. reflexivity. }
  eexists. split; [apply (Hone c1 a1 w Hplain)|].
  rewrite Hone by exact Hplain. cbn [self trace].
  rewrite <- app_assoc. reflexivity.
Qed.

(** Two connections in a row on a plain server whose handler fails. *)
Lemma failing_handler_does_not_stop_later_accepts_witness :
  ssl_options (self (Sample.fresh Sample.plain_server)) = None
  ∧ isinstance_Exception (ValueError "bad request") = true
  ∧ ∃ w1,
      _handle_connection Sample.env Sample.failing_class {| conn_id := 0 |}
        Sample.peer (Sample.fresh Sample.plain_server) = (Ok tt, w1)
      ∧ (_handle_connection Sample.env Sample.failing_class
           {| conn_id := 1 |} Sample.peer w1).1 = Ok tt.
Proof.
  split; [reflexivity|]. split; [reflexivity|].
  destruct (failing_handler_does_not_stop_later_accepts Sample.env
              Sample.failing_class {| conn_id := 0 |} {| conn_id := 1 |}
              Sample.peer Sample.peer (Sample.fresh Sample.plain_server)
              (ValueError "bad request") eq_refl
              (fun _ => eq_refl) (fun _ _ _ => eq_refl) eq_refl)
    as (w1 & Hfirst & Hsecond).
  exists w1. split; [exact Hfirst|]. rewrite Hsecond. reflexivity.
Defined.

(** The [max_buffer_size] given to the constructor is the one every stream
    is built with, whatever calls were made on the server in between, and
    the stream is an [SSLIOStream] exactly when [ssl_options] was given. *)
Theorem max_buffer_size_reaches_every_stream (env : Env)
    (loop : option IOLoop) (opts : option SSLOptions) (mbs rcs : option Z)
    (srv : TCPServer) (cs : list Call) (cls : ServerClass) (c : Connection)
    (address : Address) :
  __init__ env loop opts mbs rcs = Ok srv →
  let w := run_calls env cs {| self := srv; trace := [] |} in
  ∃ stream,
    stream_max_buffer_size stream = mbs
    ∧ stream_socket stream = c
    ∧ (stream_class stream = SSLIOStream ↔ is_Some opts)
    ∧ construct_and_dispatch env cls c address w
      = match stream_constructor env stream with
        | Some e =>
            (Raise e,
             {| self := self w; trace := trace w ++ [stream_init stream] |})
        | None =>
            handle_stream cls stream address
              {| self := self w;
                 trace := trace w
                          ++ [stream_init stream;
                              handle_stream_call stream address] |}
        end.
Proof.
  intros Hinit w. apply init_attributes in Hinit as ->.
  destruct (run_calls_frame env cs
              {| self :=
                   {| io_loop := loop; ssl_options := opts; _sockets := ∅;
                      _pending_sockets := []; _started := false;
                      max_buffer_size := mbs; read_chunk_size := None |};
                 trace := [] |}) as (Ho & Hm & Hr & _).
  fold w in Ho, Hm, Hr. cbn [self ssl_options max_buffer_size
                             read_chunk_size] in Ho, Hm, Hr.
  eexists. split; [|split; [|split;
    [|apply construct_and_dispatch_eq]]]; cbn [stream_max_buffer_size
      stream_socket stream_class].
  - exact Hm.
  - reflexivity.
  - rewrite Ho. destruct opts as [o|]; split.
    + intros _. eauto.
    + reflexivity.
    + discriminate.
    + intros [x Hx]. discriminate.
Qed.

(** A server built with [max_buffer_size=65536, read_chunk_size=4096],
    bound and started. *)
Lemma max_buffer_size_reaches_every_stream_witness :
  __init__ Sample.env None None (Some 65536) (Some 4096)
  = Ok {| io_loop := None; ssl_options := None; _sockets := ∅;
          _pending_sockets := []; _started := false;
          max_buffer_size := Some 65536; read_chunk_size := None |}
  ∧ ∃ stream,
      stream_max_buffer_size stream = Some 65536
      ∧ stream_socket stream = {| conn_id := 0 |}.
Proof.
  split; [reflexivity|].
  destruct (max_buffer_size_reaches_every_stream Sample.env None None
              (Some 65536) (Some 4096) _
              [call_bind 8888 None 0 128; call_start (Some 1)]
              Scenario.quiet_class {| conn_id := 0 |} Sample.peer eq_refl)
    as (stream & Hm & Hs & _).
  exists stream. split; [exact Hm|exact Hs].
Defined.

(** ** [listen] followed by [start] *)

(** A socket brought in by [listen] before [start] is registered by
    [listen] alone: after [listen] and then [start()], it is tracked and its
    descriptor has exactly one registration more than before (the sockets of
    one [listen] having distinct descriptors, none of them queued). *)
Theorem listen_then_start_registers_once (env : Env) (w : World)
    (port : Z) (address : string) (sockets : list Socket) (sock : Socket) :
  bind_sockets env port (Some address) 0 128 = Ok sockets →
  _started (self w) = false →
  sock ∈ sockets →
  NoDup (fileno <$> sockets) →
  fileno sock ∉ fileno <$> _pending_sockets (self w) →
  ∃ w2,
    start env (Some 1) (listen env port address w).2 = (Ok tt, w2)
    ∧ _sockets (self w2) !! fileno sock = Some sock
    ∧ registrations (fileno sock) (trace w2)
      = S (registrations (fileno sock) (trace w)).
Proof.
  intros Hbind Hstarted Hin Hnodup Hfresh.
  assert (Hlisten : listen env port address w = add_sockets env sockets w).
  { unfold listen. unfold mbind at 1, M_bind at 1. unfold lift at 1.
    rewrite Hbind. reflexivity. }
  rewrite Hlisten, add_sockets_eq. cbn [snd].
  rewrite start_cases. cbn [self _started set_sockets set_io_loop].
  rewrite Hstarted, decide_True by reflexivity.
  rewrite add_sockets_eq. eexists. split; [reflexivity|].
  cbn [self trace]. split.
  - cbn. rewrite lookup_foldl_insert_fresh by exact Hfresh.
    apply lookup_foldl_insert_member; assumption.
  - cbn. rewrite !registrations_app.
    rewrite registrations_handlers_once by assumption.
    rewrite registrations_handlers_fresh by exact Hfresh. lia.
Qed.

(** [listen(8888)] then [start()] on a new server. *)
Lemma listen_then_start_registers_once_witness :
  bind_sockets Sample.env 8888 (Some EmptyString) 0 128
  = Ok [Sample.sock4; Sample.sock5]
  ∧ ∃ w2,
      start Sample.env (Some 1)
        (listen Sample.env 8888 EmptyString
           (Sample.fresh Sample.plain_server)).2
      = (Ok tt, w2)
      ∧ _sockets (self w2) !! fileno Sample.sock4 = Some Sample.sock4
      ∧ registrations (fileno Sample.sock4) (trace w2)
        = S (registrations (fileno Sample.sock4)
               (trace (Sample.fresh Sample.plain_server))).
Proof.
  split; [reflexivity|].
  apply (listen_then_start_registers_once Sample.env
           (Sample.fresh Sample.plain_server) 8888 EmptyString
           [Sample.sock4; Sample.sock5] Sample.sock4 eq_refl eq_refl).
  - constructor.
  - apply (bool_decide_unpack _). vm_compute. exact I.
  - cbn. apply not_elem_of_nil.
Defined.
